(** * foundation-voice-client-react: conversation tracker and connection manager

    A shallow embedding of the two stateful hooks of the React SDK,

    - [useConversationState] (react-sdk/src/hooks/useConversationState.ts):
      the conversation phase, the three speaking flags and the transcript
      log, driven by transport events;
    - [useConnectionManager] (hooks/useConnectionManager.ts): the connection
      flags and the automatic reconnection with exponential backoff.

    Every [useState] cell becomes a record field and every event handler a
    function from the state before to the state after.  A handler that
    calls several setters is the composition of their updates, in the order
    of the source.  Handlers run one at a time (the JavaScript event loop).

    A listener registered by an effect reads the state through its closure,
    that is, as it was at the last render.  For the connection manager this
    matters: [Connection.step] and [Connection.run] describe deliveries to
    a component that has re-rendered since its state last changed (the
    closure holds the current state), and [Connection.deliver] and
    [Connection.play] describe every delivery, with the state the closure
    captured, the re-renders and the dependency of the transport-state
    effect made explicit.

    JavaScript numbers are modelled by exact numbers: millisecond time
    stamps by [Z] plus a [NaN] value for an invalid date, delays and their
    factors by the rationals [Q].  Rounding of IEEE doubles is therefore
    not part of the model; the value drawn by [Math.random()] is an
    explicit argument. *)

From Stdlib Require Import List String ZArith QArith Qminmax Bool Lia Lqa.
From Stdlib Require Import Qpower Ascii.
From Stdlib Require DecimalString DecimalNat DecimalZ DecimalPos.
Import ListNotations.

(** ** Truthiness of optional strings

    [data?.text], [error?.message] and [transportState] are tested for
    truthiness; for a string-valued property that is "present and not
    empty". *)

Definition truthy (s : option string) : option string :=
  match s with
  | Some EmptyString => None
  | other => other
  end.

(** [x || d] for an optional string [x]. *)
Definition or_else (s : option string) (d : string) : string :=
  match truthy s with
  | Some v => v
  | None => d
  end.

Module Conversation.

Local Open Scope string_scope.
Local Open Scope Z_scope.
Local Open Scope list_scope.

(** *** Data model *)

(** [enum ConversationState]. *)
Inductive ConversationState : Set :=
| IDLE
| USER_SPEAKING
| BOT_PROCESSING
| BOT_SPEAKING.

(** [speaker: "user" | "bot"]. *)
Inductive Speaker : Set := user | bot.

(** [role: "user" | "assistant"]. *)
Inductive Role : Set := role_user | role_assistant.

(** A time value: milliseconds since the epoch as returned by [Date.now()]
    and [Date.prototype.getTime()], or [NaN], which [getTime] returns for a
    string that is not a date. *)
Inductive TimeValue : Set :=
| Ms (ms : Z)
| NaN.

(** [interface Transcript]; [final] is an optional property. *)
Record Transcript : Set := mkTranscript {
  text : string;
  speaker : Speaker;
  timestamp : TimeValue;
  final : option bool
}.

(** [interface TranscriptUpdate].  The field [update_time] holds
    [new Date(update.timestamp).getTime()], the only use the handler makes
    of the [timestamp] string. *)
Record TranscriptUpdate : Set := mkUpdate {
  role : Role;
  content : string;
  update_time : TimeValue
}.

(** Payload of the [UserTranscript] and [BotTranscript] events, typed
    [any] in the source: both properties may be missing. *)
Record TranscriptData : Set := mkData {
  data_text : option string;
  data_final : option bool
}.

(** The seven [useState] cells of the hook. *)
Record Tracker : Set := mkTracker {
  currentState : ConversationState;
  isBotSpeaking : bool;
  isUserSpeaking : bool;
  isBotProcessing : bool;
  transcripts : list Transcript;
  lastUserTranscript : option string;
  lastBotTranscript : option string
}.

Definition initial : Tracker :=
  {| currentState := IDLE;
     isBotSpeaking := false;
     isUserSpeaking := false;
     isBotProcessing := false;
     transcripts := [];
     lastUserTranscript := None;
     lastBotTranscript := None |}.

(** *** Setters *)

Definition setCurrentState (v : ConversationState) (s : Tracker) : Tracker :=
  {| currentState := v;
     isBotSpeaking := isBotSpeaking s;
     isUserSpeaking := isUserSpeaking s;
     isBotProcessing := isBotProcessing s;
     transcripts := transcripts s;
     lastUserTranscript := lastUserTranscript s;
     lastBotTranscript := lastBotTranscript s |}.

Definition setIsBotSpeaking (v : bool) (s : Tracker) : Tracker :=
  {| currentState := currentState s;
     isBotSpeaking := v;
     isUserSpeaking := isUserSpeaking s;
     isBotProcessing := isBotProcessing s;
     transcripts := transcripts s;
     lastUserTranscript := lastUserTranscript s;
     lastBotTranscript := lastBotTranscript s |}.

Definition setIsUserSpeaking (v : bool) (s : Tracker) : Tracker :=
  {| currentState := currentState s;
     isBotSpeaking := isBotSpeaking s;
     isUserSpeaking := v;
     isBotProcessing := isBotProcessing s;
     transcripts := transcripts s;
     lastUserTranscript := lastUserTranscript s;
     lastBotTranscript := lastBotTranscript s |}.

Definition setIsBotProcessing (v : bool) (s : Tracker) : Tracker :=
  {| currentState := currentState s;
     isBotSpeaking := isBotSpeaking s;
     isUserSpeaking := isUserSpeaking s;
     isBotProcessing := v;
     transcripts := transcripts s;
     lastUserTranscript := lastUserTranscript s;
     lastBotTranscript := lastBotTranscript s |}.

(** [setTranscripts] is always called with an updater [prev => ...]. *)
Definition setTranscripts (f : list Transcript -> list Transcript)
    (s : Tracker) : Tracker :=
  {| currentState := currentState s;
     isBotSpeaking := isBotSpeaking s;
     isUserSpeaking := isUserSpeaking s;
     isBotProcessing := isBotProcessing s;
     transcripts := f (transcripts s);
     lastUserTranscript := lastUserTranscript s;
     lastBotTranscript := lastBotTranscript s |}.

Definition setLastUserTranscript (v : option string) (s : Tracker) : Tracker :=
  {| currentState := currentState s;
     isBotSpeaking := isBotSpeaking s;
     isUserSpeaking := isUserSpeaking s;
     isBotProcessing := isBotProcessing s;
     transcripts := transcripts s;
     lastUserTranscript := v;
     lastBotTranscript := lastBotTranscript s |}.

Definition setLastBotTranscript (v : option string) (s : Tracker) : Tracker :=
  {| currentState := currentState s;
     isBotSpeaking := isBotSpeaking s;
     isUserSpeaking := isUserSpeaking s;
     isBotProcessing := isBotProcessing s;
     transcripts := transcripts s;
     lastUserTranscript := lastUserTranscript s;
     lastBotTranscript := v |}.

(** Statements of a handler body, run top to bottom. *)
Definition seq (f g : Tracker -> Tracker) : Tracker -> Tracker :=
  fun s => g (f s).

Notation "f ;; g" := (seq f g) (at level 61, left associativity).

Definition skip : Tracker -> Tracker := fun s => s.

(** *** Speaking events *)

Definition transitionTo (newState : ConversationState) : Tracker -> Tracker :=
  setCurrentState newState.

(** [RTVIEvent.BotStartedSpeaking]; the listener of the window event
    ["bot-started-speaking"] has the same body. *)
Definition handleBotStartedSpeaking : Tracker -> Tracker :=
  setIsBotSpeaking true ;; transitionTo BOT_SPEAKING.

Definition handleBotStoppedSpeaking : Tracker -> Tracker :=
  setIsBotSpeaking false ;; transitionTo IDLE.

Definition handleUserStartedSpeaking : Tracker -> Tracker :=
  setIsUserSpeaking true ;; transitionTo USER_SPEAKING.

Definition handleUserStoppedSpeaking : Tracker -> Tracker :=
  setIsUserSpeaking false ;; transitionTo BOT_PROCESSING ;;
  setIsBotProcessing true.

Definition handleBotLlmStarted : Tracker -> Tracker := setIsBotProcessing true.

Definition handleBotLlmStopped : Tracker -> Tracker := setIsBotProcessing false.

(** *** Transcript events *)

(** Truthiness of [data.final]. *)
Definition is_final (d : TranscriptData) : bool :=
  match data_final d with
  | Some b => b
  | None => false
  end.

(** [RTVIEvent.UserTranscript]; [now] is [Date.now()], [data] may be
    [null] or [undefined]. *)
Definition handleUserTranscript (now : Z) (data : option TranscriptData)
    : Tracker -> Tracker :=
  match data with
  | None => skip
  | Some d =>
      match truthy (data_text d) with
      | None => skip
      | Some txt =>
          let transcript :=
            {| text := txt; speaker := user; timestamp := Ms now;
               final := Some (is_final d || false) |} in
          if is_final d
          then setLastUserTranscript (Some txt) ;;
               setTranscripts (fun prev => prev ++ [transcript])
          else skip
      end
  end.

(** [RTVIEvent.BotTranscript]. *)
Definition handleBotTranscript (now : Z) (data : option TranscriptData)
    : Tracker -> Tracker :=
  match data with
  | None => skip
  | Some d =>
      match truthy (data_text d) with
      | None => skip
      | Some txt =>
          let transcript :=
            {| text := txt; speaker := bot; timestamp := Ms now;
               final := Some true |} in
          setLastBotTranscript (Some txt) ;;
          setTranscripts (fun prev => prev ++ [transcript])
      end
  end.

Definition clearTranscripts : Tracker -> Tracker :=
  setTranscripts (fun _ => []) ;;
  setLastUserTranscript None ;;
  setLastBotTranscript None.

Definition addTranscript (transcript : Transcript) : Tracker -> Tracker :=
  setTranscripts (fun prev => prev ++ [transcript]) ;;
  match speaker transcript with
  | user => setLastUserTranscript (Some (text transcript))
  | bot => setLastBotTranscript (Some (text transcript))
  end.

(** *** Out-of-band transcript updates *)

Definition Speaker_eqb (a b : Speaker) : bool :=
  match a, b with
  | user, user | bot, bot => true
  | _, _ => false
  end.

(** [Math.abs(a - b) < 1000]; a comparison with [NaN] is false. *)
Definition abs_diff_lt_1000 (a b : TimeValue) : bool :=
  match a, b with
  | Ms x, Ms y => Z.abs (x - y) <? 1000
  | _, _ => false
  end.

(** [isAssistant ? "bot" : "user"]. *)
Definition speaker_of (r : Role) : Speaker :=
  match r with
  | role_assistant => bot
  | role_user => user
  end.

(** The predicate handed to [prev.some]. *)
Definition same_transcript (update : TranscriptUpdate) (t : Transcript) : bool :=
  String.eqb (text t) (content update)
  && Speaker_eqb (speaker t) (speaker_of (role update))
  && abs_diff_lt_1000 (timestamp t) (update_time update).

Definition handleTranscriptUpdate (update : TranscriptUpdate)
    : Tracker -> Tracker :=
  let transcript :=
    {| text := content update;
       speaker := speaker_of (role update);
       timestamp := update_time update;
       final := Some true |} in
  match role update with
  | role_assistant => setLastBotTranscript (Some (content update))
  | role_user => setLastUserTranscript (Some (content update))
  end ;;
  setTranscripts (fun prev =>
    let exists_ := existsb (same_transcript update) prev in
    if exists_ then prev else prev ++ [transcript]).

(** *** The hook as a reducer over its events *)

Inductive Event : Set :=
| BotStartedSpeaking
| BotStoppedSpeaking
| WindowBotStartedSpeaking
| WindowBotStoppedSpeaking
| UserStartedSpeaking
| UserStoppedSpeaking
| BotLlmStarted
| BotLlmStopped
| UserTranscript (now : Z) (data : option TranscriptData)
| BotTranscript (now : Z) (data : option TranscriptData)
| ClearTranscripts
| AddTranscript (transcript : Transcript)
| ServerTranscriptUpdate (update : TranscriptUpdate).

Definition handle (ev : Event) : Tracker -> Tracker :=
  match ev with
  | BotStartedSpeaking | WindowBotStartedSpeaking => handleBotStartedSpeaking
  | BotStoppedSpeaking | WindowBotStoppedSpeaking => handleBotStoppedSpeaking
  | UserStartedSpeaking => handleUserStartedSpeaking
  | UserStoppedSpeaking => handleUserStoppedSpeaking
  | BotLlmStarted => handleBotLlmStarted
  | BotLlmStopped => handleBotLlmStopped
  | UserTranscript now data => handleUserTranscript now data
  | BotTranscript now data => handleBotTranscript now data
  | ClearTranscripts => clearTranscripts
  | AddTranscript t => addTranscript t
  | ServerTranscriptUpdate u => handleTranscriptUpdate u
  end.

(** Events are processed in delivery order. *)
Definition run (evs : list Event) (s : Tracker) : Tracker :=
  fold_left (fun acc ev => handle ev acc) evs s.

(** *** The transition table of the specification *)

(** The phase column of the table: the phase an event assigns, [None] for
    an event that leaves the phase alone. *)
Definition table_phase (ev : Event) : option ConversationState :=
  match ev with
  | BotStartedSpeaking | WindowBotStartedSpeaking => Some BOT_SPEAKING
  | BotStoppedSpeaking | WindowBotStoppedSpeaking => Some IDLE
  | UserStartedSpeaking => Some USER_SPEAKING
  | UserStoppedSpeaking => Some BOT_PROCESSING
  | _ => None
  end.

(** The phase assigned by the latest phase-changing event of a sequence
    given in delivery order. *)
Fixpoint most_recent_phase (evs : list Event) : option ConversationState :=
  match evs with
  | [] => None
  | ev :: later =>
      match most_recent_phase later with
      | Some p => Some p
      | None => table_phase ev
      end
  end.

(** *** The transcript rules of the specification *)

(** Two time stamps are within 1000ms of each other: both are numbers and
    they differ by less than 1000. *)
Definition within_1000ms (a b : TimeValue) : Prop :=
  exists x y : Z, a = Ms x /\ b = Ms y /\ Z.abs (x - y) < 1000.

(** The dedup rule: some entry of the log has the text and the speaker of
    the update and a time stamp within 1000ms of the update's. *)
Definition is_duplicate (update : TranscriptUpdate) (log : list Transcript)
    : Prop :=
  exists t : Transcript,
    In t log
    /\ text t = content update
    /\ speaker t = speaker_of (role update)
    /\ within_1000ms (timestamp t) (update_time update).

(** The entry an accepted update appends. *)
Definition entry_of (update : TranscriptUpdate) : Transcript :=
  {| text := content update;
     speaker := speaker_of (role update);
     timestamp := update_time update;
     final := Some true |}.

(** The text of a transcript event when it is present and not empty. *)
Definition event_text (data : option TranscriptData) : option string :=
  match data with
  | Some {| data_text := Some (String c rest) |} => Some (String c rest)
  | _ => None
  end.

(** The event says [final = true]. *)
Definition event_final (data : option TranscriptData) : bool :=
  match data with
  | Some {| data_final := Some true |} => true
  | _ => false
  end.

(** Committing an utterance: a final entry is appended to the log and the
    speaker's last-utterance pointer is set; nothing else changes. *)
Definition commit (who : Speaker) (txt : string) (now : Z) (s : Tracker)
    : Tracker :=
  {| currentState := currentState s;
     isBotSpeaking := isBotSpeaking s;
     isUserSpeaking := isUserSpeaking s;
     isBotProcessing := isBotProcessing s;
     transcripts :=
       transcripts s ++
       [{| text := txt; speaker := who; timestamp := Ms now;
           final := Some true |}];
     lastUserTranscript :=
       match who with
       | user => Some txt
       | bot => lastUserTranscript s
       end;
     lastBotTranscript :=
       match who with
       | bot => Some txt
       | user => lastBotTranscript s
       end |}.

(** *** Notions used to state invariants of the tracker *)

(** The events that leave an existing log as it is or add to it: all but
    [clearTranscripts()]. *)
Definition keeps_log (ev : Event) : bool :=
  match ev with
  | ClearTranscripts => false
  | _ => true
  end.

(** The transcript operations: the events whose handler calls a setter of
    the log or of a last-utterance pointer. *)
Definition is_transcript_op (ev : Event) : bool :=
  match ev with
  | UserTranscript _ _ | BotTranscript _ _ | ClearTranscripts
  | AddTranscript _ | ServerTranscriptUpdate _ => true
  | _ => false
  end.

(** The events of the primary path: everything but [addTranscript] and the
    out-of-band updates. *)
Definition is_primary (ev : Event) : bool :=
  match ev with
  | AddTranscript _ | ServerTranscriptUpdate _ => false
  | _ => true
  end.

(** The events that append to the log, if at all, through the dedup test:
    everything but [addTranscript] and the two transcript events. *)
Definition is_deduplicated (ev : Event) : bool :=
  match ev with
  | AddTranscript _ | UserTranscript _ _ | BotTranscript _ _ => false
  | _ => true
  end.

(** Two entries the dedup test takes for the same utterance. *)
Definition close_entries (a b : Transcript) : bool :=
  String.eqb (text a) (text b)
  && Speaker_eqb (speaker a) (speaker b)
  && abs_diff_lt_1000 (timestamp a) (timestamp b).

(** The log holds an utterance of [who] with the text [txt]. *)
Definition has_entry (who : Speaker) (txt : string) (log : list Transcript)
    : Prop :=
  exists t : Transcript, In t log /\ speaker t = who /\ text t = txt.

(** What an event writes into each of the three flags, [None] when it
    leaves the flag alone. *)
Definition writes_isBotSpeaking (ev : Event) : option bool :=
  match ev with
  | BotStartedSpeaking | WindowBotStartedSpeaking => Some true
  | BotStoppedSpeaking | WindowBotStoppedSpeaking => Some false
  | _ => None
  end.

Definition writes_isUserSpeaking (ev : Event) : option bool :=
  match ev with
  | UserStartedSpeaking => Some true
  | UserStoppedSpeaking => Some false
  | _ => None
  end.

Definition writes_isBotProcessing (ev : Event) : option bool :=
  match ev with
  | UserStoppedSpeaking | BotLlmStarted => Some true
  | BotLlmStopped => Some false
  | _ => None
  end.

(** The latest value written, for a sequence in delivery order. *)
Fixpoint most_recent_write {A : Type} (writes : Event -> option A)
    (evs : list Event) : option A :=
  match evs with
  | [] => None
  | ev :: later =>
      match most_recent_write writes later with
      | Some v => Some v
      | None => writes ev
      end
  end.

(** The part of the state the transcript operations work on, and the part
    the speaking events work on. *)
Definition transcript_part (s : Tracker)
    : list Transcript * option string * option string :=
  (transcripts s, lastUserTranscript s, lastBotTranscript s).

Definition speaking_part (s : Tracker)
    : ConversationState * bool * bool * bool :=
  (currentState s, isBotSpeaking s, isUserSpeaking s, isBotProcessing s).

(** No two entries of the log are taken for the same utterance by the
    dedup test. *)
Definition pairwise_apart (log : list Transcript) : Prop :=
  ForallOrdPairs (fun a b => close_entries a b = false) log.

(** An entry as the two transcript events write it: a text that is not
    empty, a time that is a number, marked final. *)
Definition committed_entry (t : Transcript) : Prop :=
  text t <> "" /\ final t = Some true /\ exists ms : Z, timestamp t = Ms ms.

(** Each pointer that is set names an utterance the log holds. *)
Definition pointers_backed (s : Tracker) : Prop :=
  (forall txt, lastUserTranscript s = Some txt ->
     has_entry user txt (transcripts s))
  /\ (forall txt, lastBotTranscript s = Some txt ->
        has_entry bot txt (transcripts s)).

(** The phase does not run ahead of the flags. *)
Definition phase_backed (s : Tracker) : Prop :=
  (currentState s = BOT_SPEAKING -> isBotSpeaking s = true)
  /\ (currentState s = USER_SPEAKING -> isUserSpeaking s = true).

End Conversation.

Module Connection.

Local Open Scope string_scope.
Local Open Scope Q_scope.

(** *** Data model *)

(** [interface ConnectionState]. *)
Record ConnectionState : Set := mkConnectionState {
  isConnected : bool;
  isConnecting : bool;
  isReconnecting : bool;
  reconnectAttempts : nat;
  lastError : option string;
  transportState : string
}.

(** [interface ConnectionManagerOptions]: every property is optional. *)
Record ConnectionManagerOptions : Set := mkOptions {
  maxReconnectAttempts_opt : option Q;
  reconnectDelay_opt : option Q;
  maxReconnectDelay_opt : option Q;
  reconnectBackoffMultiplier_opt : option Q
}.

(** [useConnectionManager()] called without options. *)
Definition no_options : ConnectionManagerOptions :=
  {| maxReconnectAttempts_opt := None;
     reconnectDelay_opt := None;
     maxReconnectDelay_opt := None;
     reconnectBackoffMultiplier_opt := None |}.

(** A default of a destructuring pattern. *)
Definition with_default (given : option Q) (default : Q) : Q :=
  match given with
  | Some v => v
  | None => default
  end.

(** [a < b] and [a >= b] on numbers. *)
Definition Qlt_bool (a b : Q) : bool := negb (Qle_bool b a).
Definition Qge_bool (a b : Q) : bool := Qle_bool b a.

(** The counter as a JavaScript number. *)
Definition number (n : nat) : Q := inject_Z (Z.of_nat n).

(** [ts === "connected" || ts === "ready"]. *)
Definition connected_or_ready (ts : string) : bool :=
  String.eqb ts "connected" || String.eqb ts "ready".

(** State of the hook at mount; [transportState] is the value of
    [useRTVIClientTransportState()] at that time. *)
Definition initial (transportState : string) : ConnectionState :=
  {| isConnected := false;
     isConnecting := false;
     isReconnecting := false;
     reconnectAttempts := 0%nat;
     lastError := None;
     transportState :=
       or_else (Some transportState) "disconnected" |}.

Section Hook.

Variable options : ConnectionManagerOptions.

(** The four constants destructured from [options]. *)
Definition maxReconnectAttempts : Q :=
  with_default (maxReconnectAttempts_opt options) 5.
Definition reconnectDelay : Q :=
  with_default (reconnectDelay_opt options) 1000.
Definition maxReconnectDelay : Q :=
  with_default (maxReconnectDelay_opt options) 30000.
Definition reconnectBackoffMultiplier : Q :=
  with_default (reconnectBackoffMultiplier_opt options) 1.5.

(** The effect on [transportState]: two updates in a row, the second only
    for a connected or ready transport; nothing for a falsy value. *)
Definition onTransportState (transportState : string)
    (prev : ConnectionState) : ConnectionState :=
  match truthy (Some transportState) with
  | None => prev
  | Some _ =>
      let prev1 :=
        {| isConnected := connected_or_ready transportState;
           isConnecting := String.eqb transportState "connecting";
           isReconnecting :=
             isReconnecting prev && String.eqb transportState "connecting";
           reconnectAttempts := reconnectAttempts prev;
           lastError := lastError prev;
           transportState := transportState |} in
      if connected_or_ready transportState
      then {| isConnected := isConnected prev1;
              isConnecting := isConnecting prev1;
              isReconnecting := false;
              reconnectAttempts := 0%nat;
              lastError := lastError prev1;
              transportState := Connection.transportState prev1 |}
      else prev1
  end.

(** [random] is the value of [Math.random()]. *)
Definition calculateReconnectDelay (attempts : nat) (random : Q) : Q :=
  let baseDelay :=
    reconnectDelay * reconnectBackoffMultiplier ^ Z.of_nat attempts in
  let jitter := 0.8 + random * 0.4 in
  Qmin (baseDelay * jitter) maxReconnectDelay.

(** The listener of [RTVIEvent.Disconnected].  It reads the guard from the
    [connectionState] its closure captured and updates the state [prev];
    the result carries the delay of the timer it starts, if any. *)
Definition handleDisconnect (connectionState : ConnectionState) (random : Q)
    (prev : ConnectionState) : ConnectionState * option Q :=
  if isConnected connectionState
     && Qlt_bool (number (reconnectAttempts connectionState))
          maxReconnectAttempts
  then
    let nextAttempt := S (reconnectAttempts connectionState) in
    let delay := calculateReconnectDelay nextAttempt random in
    ({| isConnected := isConnected prev;
        isConnecting := isConnecting prev;
        isReconnecting := true;
        reconnectAttempts := nextAttempt;
        lastError := lastError prev;
        transportState := transportState prev |},
     Some delay)
  else if Qge_bool (number (reconnectAttempts connectionState))
            maxReconnectAttempts
  then
    ({| isConnected := isConnected prev;
        isConnecting := isConnecting prev;
        isReconnecting := false;
        reconnectAttempts := reconnectAttempts prev;
        lastError := Some "Maximum reconnection attempts reached";
        transportState := transportState prev |},
     None)
  else (prev, None).

Definition setLastError (v : option string) (prev : ConnectionState)
    : ConnectionState :=
  {| isConnected := isConnected prev;
     isConnecting := isConnecting prev;
     isReconnecting := isReconnecting prev;
     reconnectAttempts := reconnectAttempts prev;
     lastError := v;
     transportState := transportState prev |}.

(** The rejection handler of the [client.connect()] the timer calls. *)
Definition reconnectFailed (message : option string)
    : ConnectionState -> ConnectionState :=
  setLastError
    (Some ("Reconnection failed: " ++ or_else message "Unknown error")).

(** The listener of [RTVIEvent.Error]; [message] is [error?.message]. *)
Definition handleError (message : option string)
    : ConnectionState -> ConnectionState :=
  setLastError (Some (or_else message "Unknown error")).

(** [connect()]: the update before [await client.connect()], ... *)
Definition connect_begin (prev : ConnectionState) : ConnectionState :=
  {| isConnected := isConnected prev;
     isConnecting := true;
     isReconnecting := isReconnecting prev;
     reconnectAttempts := reconnectAttempts prev;
     lastError := None;
     transportState := transportState prev |}.

(** ... the one after it when the promise resolves, ... *)
Definition connect_resolved (prev : ConnectionState) : ConnectionState :=
  {| isConnected := isConnected prev;
     isConnecting := false;
     isReconnecting := isReconnecting prev;
     reconnectAttempts := 0%nat;
     lastError := lastError prev;
     transportState := transportState prev |}.

(** ... and the one of the [catch] block. *)
Definition connect_rejected (message : option string)
    (prev : ConnectionState) : ConnectionState :=
  {| isConnected := isConnected prev;
     isConnecting := false;
     isReconnecting := isReconnecting prev;
     reconnectAttempts := reconnectAttempts prev;
     lastError := Some (or_else message "Connection failed");
     transportState := transportState prev |}.

(** [disconnect()] after [await client.disconnect()] resolved; a rejection
    is logged and changes nothing. *)
Definition disconnect_resolved (prev : ConnectionState) : ConnectionState :=
  {| isConnected := false;
     isConnecting := false;
     isReconnecting := false;
     reconnectAttempts := reconnectAttempts prev;
     lastError := lastError prev;
     transportState := transportState prev |}.

Definition clearError : ConnectionState -> ConnectionState :=
  setLastError None.

(** *** The hook as a reducer over its events *)

Inductive Event : Set :=
| TransportStateChanged (transportState : string)
| Disconnected (random : Q)
| Error (message : option string)
| ReconnectRejected (message : option string)
| ConnectCalled
| ConnectResolved
| ConnectRejected (message : option string)
| DisconnectResolved
| DisconnectRejected
| ClearError.

(** One event delivered to a component that has re-rendered since its
    state last changed: the state afterwards and the delay of the
    reconnection timer the event starts, if it starts one.  The listener of
    [Disconnected] is registered again after every render in which a field
    it reads has changed, so here its closure holds the current state; and
    [TransportStateChanged ts] stands for a run of the transport-state
    effect with the value [ts].  Deliveries between two renders, and
    reports that do not change the value the effect depends on, are those
    of [deliver] below. *)
Definition step (s : ConnectionState) (ev : Event)
    : ConnectionState * option Q :=
  match ev with
  | TransportStateChanged ts => (onTransportState ts s, None)
  | Disconnected random => handleDisconnect s random s
  | Error message => (handleError message s, None)
  | ReconnectRejected message => (reconnectFailed message s, None)
  | ConnectCalled => (connect_begin s, None)
  | ConnectResolved => (connect_resolved s, None)
  | ConnectRejected message => (connect_rejected message s, None)
  | DisconnectResolved => (disconnect_resolved s, None)
  | DisconnectRejected => (s, None)
  | ClearError => (clearError s, None)
  end.

Definition timers (scheduled : option Q) : list Q :=
  match scheduled with
  | Some delay => [delay]
  | None => []
  end.

(** A run: the final state and the delays of the timers started on the
    way, in order. *)
Fixpoint run (evs : list Event) (s : ConnectionState)
    : ConnectionState * list Q :=
  match evs with
  | [] => (s, [])
  | ev :: later =>
      let (s1, scheduled) := step s ev in
      let (s2, more) := run later s1 in
      (s2, (timers scheduled ++ more)%list)
  end.

Definition state_after (evs : list Event) (s : ConnectionState)
    : ConnectionState :=
  fst (run evs s).

(** *** The component between renders *)

(** The mounted component: the state cell with every queued update
    applied ([current]); the [connectionState] of the last render, which is
    what the closure of the [Disconnected] listener holds ([captured]); and
    the value of [transportState] at the last run of the transport-state
    effect, its only dependency ([reported]).  The listener reads
    [isConnected] and [reconnectAttempts] from its closure and nothing
    else; both are dependencies of the effect that registers it, so a
    render that changes neither keeps a closure that agrees with the new
    state on what the listener reads. *)
Record Component : Set := mkComponent {
  current : ConnectionState;
  captured : ConnectionState;
  reported : string
}.

(** What happens to a mounted component: a re-render is committed and the
    effects whose dependencies changed run again, or an event is
    delivered. *)
Inductive Delivery : Set :=
| Render
| Deliver (ev : Event).

(** The component after its first render and the first run of its
    effects; [transportState] is the value of
    [useRTVIClientTransportState()] at that time. *)
Definition mount (transportState : string) : Component :=
  {| current := onTransportState transportState (initial transportState);
     captured := initial transportState;
     reported := transportState |}.

(** One delivery.  A render hands the current state to the listener.  A
    report of the transport state runs the effect only when the value
    differs from the one the effect last ran with.  A disconnect event
    runs the listener with the captured state.  The other handlers read
    the state only through their updater functions. *)
Definition deliver (c : Component) (d : Delivery) : Component * option Q :=
  match d with
  | Render =>
      ({| current := current c;
          captured := current c;
          reported := reported c |}, None)
  | Deliver (TransportStateChanged ts) =>
      if String.eqb ts (reported c) then (c, None)
      else
        ({| current := onTransportState ts (current c);
            captured := captured c;
            reported := ts |}, None)
  | Deliver (Disconnected random) =>
      let (s, scheduled) :=
        handleDisconnect (captured c) random (current c) in
      ({| current := s; captured := captured c; reported := reported c |},
       scheduled)
  | Deliver ev =>
      ({| current := fst (step (current c) ev);
          captured := captured c;
          reported := reported c |}, None)
  end.

(** Deliveries in a row: the component at the end and the delays of the
    timers started on the way, in order. *)
Fixpoint play (ds : list Delivery) (c : Component) : Component * list Q :=
  match ds with
  | [] => (c, [])
  | d :: later =>
      let (c1, scheduled) := deliver c d in
      let (c2, more) := play later c1 in
      (c2, (timers scheduled ++ more)%list)
  end.

End Hook.

(** *** Notions of the specification *)

(** The raw transport state moves into a connected or ready value. *)
Definition enters_connected (ev : Event) : bool :=
  match ev with
  | TransportStateChanged ts => connected_or_ready ts
  | _ => false
  end.

(** The events that set the counter to 0: the above and the resolution of a
    manual [connect()]. *)
Definition resets_counter (ev : Event) : bool :=
  match ev with
  | ConnectResolved => true
  | other => enters_connected other
  end.

(** Disconnect events in a row, one for each random draw of [draws]. *)
Definition disconnects (draws : list Q) : list Event :=
  map Disconnected draws.

(** The values [Math.random()] can return. *)
Definition unit_interval (random : Q) : Prop := 0 <= random /\ random < 1.

(** No event of the sequence sets the counter to 0. *)
Definition no_reset (evs : list Event) : bool :=
  forallb (fun ev => negb (resets_counter ev)) evs.


(** How the flags follow the raw transport state: the manager holds itself
    connected only on a connected or ready transport, and reconnecting only
    on a connecting transport or while it still holds itself connected. *)
Definition coherent (s : ConnectionState) : Prop :=
  (isConnected s = true -> connected_or_ready (transportState s) = true)
  /\ (isReconnecting s = true ->
      transportState s = "connecting" \/ isConnected s = true).

(** The connected state every example starts from: the hook is mounted on a
    disconnected transport, which then connects. *)
Definition connected : ConnectionState :=
  state_after no_options
    [TransportStateChanged "connecting"; TransportStateChanged "connected"]
    (initial "disconnected").

(** *** Notions used to state invariants of the manager *)

(** Every disconnect event of the sequence carries a value [Math.random()]
    can return. *)
Definition draws_in_unit (evs : list Event) : Prop :=
  Forall (fun ev =>
            match ev with
            | Disconnected random => unit_interval random
            | _ => True
            end) evs.

(** The latest transport state the effect did not skip, for a sequence in
    delivery order. *)
Fixpoint most_recent_transport (evs : list Event) : option string :=
  match evs with
  | [] => None
  | ev :: later =>
      match most_recent_transport later with
      | Some ts => Some ts
      | None =>
          match ev with
          | TransportStateChanged ts => truthy (Some ts)
          | _ => None
          end
      end
  end.

(** The events that set lastError to null: [connect()] when it is called
    and [clearError()]. *)
Definition clears_error (ev : Event) : bool :=
  match ev with
  | ConnectCalled | ClearError => true
  | _ => false
  end.

(** *** Notions used to state facts about deliveries *)

(** The component has re-rendered since its state last changed. *)
Definition rendered (c : Component) : Prop := captured c = current c.

(** Events delivered with a re-render after each one. *)
Definition with_renders (evs : list Event) : list Delivery :=
  flat_map (fun ev => [Deliver ev; Render]) evs.

(** Events delivered in a row, with no re-render in between. *)
Definition in_one_tick (evs : list Event) : list Delivery :=
  map Deliver evs.

(** No delivery of the sequence is an event that sets the counter to 0. *)
Definition quiet (ds : list Delivery) : bool :=
  forallb (fun d =>
             match d with
             | Render => true
             | Deliver ev => negb (resets_counter ev)
             end) ds.

(** Between two renders the counter is the captured count or one more,
    and at most [m]. *)
Definition near_captured (m : nat) (c : Component) : Prop :=
  (reconnectAttempts (captured c) <= reconnectAttempts (current c))%nat
  /\ (reconnectAttempts (current c) <= S (reconnectAttempts (captured c)))%nat
  /\ (reconnectAttempts (current c) <= m)%nat.

(** The text an error is recorded under: its message when it has one that
    is not empty, the fallback otherwise. *)
Definition message_or (message : option string) (fallback : string)
    : string :=
  match message with
  | Some (String c rest) => String c rest
  | _ => fallback
  end.

(** The connected component every example of a delivery starts from: it
    is mounted on a disconnected transport, which then connects, with a
    re-render after each report. *)
Definition connected_component : Component :=
  fst (play no_options
         [Deliver (TransportStateChanged "connecting"); Render;
          Deliver (TransportStateChanged "connected"); Render]
         (mount "disconnected")).

End Connection.

(** ** The logger (utils/logger.ts) *)

Module Logger.

Local Open Scope string_scope.

(** [type LogLevel] and [type LogCategory]. *)
Inductive LogLevel : Set := debug | info | warn | error.

Inductive LogCategory : Set :=
| transport
| audio
| connection
| ui
| conversation
| event
| general.

(** The property name of a level and of a category. *)
Definition level_key (level : LogLevel) : string :=
  match level with
  | debug => "debug"
  | info => "info"
  | warn => "warn"
  | error => "error"
  end.

Definition category_key (category : LogCategory) : string :=
  match category with
  | transport => "transport"
  | audio => "audio"
  | connection => "connection"
  | ui => "ui"
  | conversation => "conversation"
  | event => "event"
  | general => "general"
  end.

(** [level in LOG_LEVEL_ENABLED] together with the property the key then
    names.  A key that passes the [in] test through the prototype chain
    names none of the four levels; writing to it leaves them alone, as
    skipping it does. *)
Definition level_of_key (key : string) : option LogLevel :=
  if String.eqb key "debug" then Some debug
  else if String.eqb key "info" then Some info
  else if String.eqb key "warn" then Some warn
  else if String.eqb key "error" then Some error
  else None.

Definition category_of_key (key : string) : option LogCategory :=
  if String.eqb key "transport" then Some transport
  else if String.eqb key "audio" then Some audio
  else if String.eqb key "connection" then Some connection
  else if String.eqb key "ui" then Some ui
  else if String.eqb key "conversation" then Some conversation
  else if String.eqb key "event" then Some event
  else if String.eqb key "general" then Some general
  else None.

Definition LogLevel_eqb (a b : LogLevel) : bool :=
  String.eqb (level_key a) (level_key b).

Definition LogCategory_eqb (a b : LogCategory) : bool :=
  String.eqb (category_key a) (category_key b).

(** The two module-level tables. *)
Record Tables : Type := mkTables {
  LOG_LEVEL_ENABLED : LogLevel -> bool;
  CATEGORY_ENABLED : LogCategory -> bool
}.

(** The tables when the module is loaded; [production] is
    [process.env.NODE_ENV === "production"]. *)
Definition initial (production : bool) : Tables :=
  {| LOG_LEVEL_ENABLED :=
       fun level =>
         match level with
         | debug => negb production
         | _ => true
         end;
     CATEGORY_ENABLED := fun _ => true |}.

Definition shouldLog (t : Tables) (level : LogLevel) (category : LogCategory)
    : bool :=
  LOG_LEVEL_ENABLED t level && CATEGORY_ENABLED t category.

(** [CATEGORY_ENABLED[category] = enabled] and
    [LOG_LEVEL_ENABLED[level] = enabled]. *)
Definition set_category (category : LogCategory) (enabled : bool) (t : Tables)
    : Tables :=
  {| LOG_LEVEL_ENABLED := LOG_LEVEL_ENABLED t;
     CATEGORY_ENABLED :=
       fun c => if LogCategory_eqb c category then enabled
                else CATEGORY_ENABLED t c |}.

Definition set_level (level : LogLevel) (enabled : bool) (t : Tables)
    : Tables :=
  {| LOG_LEVEL_ENABLED :=
       fun l => if LogLevel_eqb l level then enabled
                else LOG_LEVEL_ENABLED t l;
     CATEGORY_ENABLED := CATEGORY_ENABLED t |}.

(** [configureLogging(categories, levels)]; each argument is given by its
    [Object.entries], and [{}] by the empty list. *)
Definition configureLogging (categories levels : list (string * bool))
    (t : Tables) : Tables :=
  let t1 :=
    fold_left
      (fun acc entry =>
         match category_of_key (fst entry) with
         | Some category => set_category category (snd entry) acc
         | None => acc
         end)
      categories t in
  fold_left
    (fun acc entry =>
       match level_of_key (fst entry) with
       | Some level => set_level level (snd entry) acc
       | None => acc
       end)
    levels t1.

(** The value the entries give to a key: that of the last entry with this
    key, if there is one. *)
Fixpoint setting (entries : list (string * bool)) (key : string)
    : option bool :=
  match entries with
  | [] => None
  | entry :: later =>
      match setting later key with
      | Some enabled => Some enabled
      | None => if String.eqb (fst entry) key then Some (snd entry) else None
      end
  end.

Definition or_keep (given : option bool) (old : bool) : bool :=
  match given with
  | Some enabled => enabled
  | None => old
  end.

End Logger.

(** ** The elapsed-time display of the microphone control
    (components/controls/MicControl.tsx) *)

Module MicControl.

Local Open Scope string_scope.

(** [n.toString()] for a count of seconds or minutes. *)
Definition toString (n : nat) : string :=
  DecimalString.NilEmpty.string_of_uint (Nat.to_uint n).

Fixpoint repeat_char (c : ascii) (n : nat) : string :=
  match n with
  | O => ""
  | S k => String c (repeat_char c k)
  end.

(** [s.padStart(targetLength, padChar)] for a pad string of one
    character. *)
Definition padStart (targetLength : nat) (padChar : ascii) (s : string)
    : string :=
  repeat_char padChar (targetLength - String.length s) ++ s.

(** [seconds] is the [time] cell of the component, a count that starts at
    0 and goes up by one every second. *)
Definition formatTime (seconds : nat) : string :=
  let mins := Nat.div seconds 60 in
  let secs := Nat.modulo seconds 60 in
  padStart 2 "0" (toString mins) ++ ":" ++ padStart 2 "0" (toString secs).

End MicControl.

(** ** The shared chat log (components/chats/ChatContext.tsx) *)

Module Chat.

Local Open Scope string_scope.

Inductive MessageType : Set := user | bot.

(** [interface ChatMessage]; [timestamp] is the time value of the [Date]. *)
Record ChatMessage : Set := mkChatMessage {
  id : string;
  type : MessageType;
  text : string;
  timestamp : Z
}.

(** [n.toString()] for the integer [Date.now()] returns. *)
Definition toString (n : Z) : string :=
  DecimalString.NilZero.string_of_int (Z.to_int n).

(** [addMessage(type, text)]; [now] is the value of [Date.now()] and [date]
    the time value of [new Date()], two readings of the clock. *)
Definition addMessage (now date : Z) (type : MessageType) (text : string)
    (prev : list ChatMessage) : list ChatMessage :=
  let newMessage :=
    {| id := toString now; type := type; text := text; timestamp := date |} in
  (prev ++ [newMessage])%list.

Definition clearMessages (prev : list ChatMessage) : list ChatMessage := [].

(** A call of [addMessage] with its two clock readings. *)
Record AddCall : Set := mkAddCall {
  call_now : Z;
  call_date : Z;
  call_type : MessageType;
  call_text : string
}.

(** Calls of [addMessage] in a row. *)
Definition addMessages (calls : list AddCall) (prev : list ChatMessage)
    : list ChatMessage :=
  fold_left
    (fun acc call =>
       addMessage (call_now call) (call_date call) (call_type call)
         (call_text call) acc)
    calls prev.

End Chat.

(** ** The debug console (components/chats/DebugDisplay.tsx) *)

Module DebugDisplay.

Local Open Scope string_scope.

(** [message.startsWith(p)] and [message.includes(sub)]. *)
Definition startsWith (message p : string) : bool := String.prefix p message.

Fixpoint includes (message sub : string) : bool :=
  String.prefix sub message
  || match message with
     | EmptyString => false
     | String _ rest => includes rest sub
     end.

(** The class name [log] gives the entry of a message. *)
Definition className (message : string) : string :=
  "text-xs font-mono py-1 border-b border-border/50"
  ++ (if startsWith message "User: " then " text-blue-500"
      else if startsWith message "Bot: " then " text-green-500"
      else if includes message "error" || includes message "Error"
           then " text-red-500"
      else if includes message "warning" || includes message "Warning"
           then " text-yellow-500"
      else "").

(** [log(message)]: the class name and the text of the entry appended to
    the console, nothing when the console is not mounted
    ([debugLogRef.current] is null); [time] is
    [new Date().toLocaleTimeString()]. *)
Definition log (mounted : bool) (time : string) (message : string)
    : option (string * string) :=
  if mounted then Some (className message, time ++ " - " ++ message)
  else None.

(** The listeners of [UserTranscript] and [BotTranscript]. *)
Definition onUserTranscript (mounted : bool) (time : string)
    (text : string) (final : bool) : option (string * string) :=
  if final then log mounted time ("User: " ++ text) else None.

Definition onBotTranscript (mounted : bool) (time : string) (text : string)
    : option (string * string) :=
  log mounted time ("Bot: " ++ text).

End DebugDisplay.

(** * Facts about the conversation tracker *)

Module ConversationFacts.

Import Conversation.
Local Open Scope string_scope.
Local Open Scope Z_scope.
Local Open Scope list_scope.

(** Unfolding of the handler combinators. *)
Ltac unfold_handlers :=
  unfold handle, handleBotStartedSpeaking, handleBotStoppedSpeaking,
    handleUserStartedSpeaking, handleUserStoppedSpeaking,
    handleBotLlmStarted, handleBotLlmStopped, handleUserTranscript,
    handleBotTranscript, clearTranscripts, addTranscript,
    handleTranscriptUpdate, transitionTo, seq, skip in *.

Lemma run_cons (ev : Event) (evs : list Event) (s : Tracker) :
  run (ev :: evs) s = run evs (handle ev s).
Proof. reflexivity. Qed.

Lemma run_app (evs1 evs2 : list Event) (s : Tracker) :
  run (evs1 ++ evs2) s = run evs2 (run evs1 s).
Proof. unfold run. apply fold_left_app. Qed.

(** One event: the phase afterwards is the one the table gives, and the
    old phase where the table gives none. *)
Lemma currentState_handle (ev : Event) (s : Tracker) :
  currentState (handle ev s) =
  match table_phase ev with
  | Some p => p
  | None => currentState s
  end.
Proof.
  destruct ev as [ | | | | | | | |now data|now data| |t|u]; try reflexivity.
  - unfold_handlers. destruct data as [d|]; [|reflexivity].
    destruct (truthy (data_text d)); [|reflexivity].
    destruct (is_final d); reflexivity.
  - unfold_handlers. destruct data as [d|]; [|reflexivity].
    destruct (truthy (data_text d)); reflexivity.
  - unfold_handlers. destruct (speaker t); reflexivity.
  - unfold_handlers. destruct (role u); reflexivity.
Qed.

(** C1. For every sequence of events processed by the tracker, whatever
    the state it starts from, the phase at the end is the phase the
    transition table assigns to the latest phase-changing event of the
    sequence (bot started -> BOT_SPEAKING, bot stopped -> IDLE, user started
    -> USER_SPEAKING, user stopped -> BOT_PROCESSING, the LLM events change
    no phase), and the starting phase when no event of the sequence changes
    the phase.  After user started, user stopped, LLM started, LLM stopped,
    bot started, bot stopped the phase is IDLE and the three flags are
    false. *)
Theorem C1_phase_last_write_wins :
  (forall (evs : list Event) (s : Tracker),
     currentState (run evs s) =
     match most_recent_phase evs with
     | Some p => p
     | None => currentState s
     end)
  /\ (let s' := run [UserStartedSpeaking; UserStoppedSpeaking; BotLlmStarted;
                     BotLlmStopped; BotStartedSpeaking; BotStoppedSpeaking]
                    initial in
      currentState s' = IDLE
      /\ isBotProcessing s' = false
      /\ isUserSpeaking s' = false
      /\ isBotSpeaking s' = false).
Proof.
  split.
  - induction evs as [|ev later IH]; intros s.
    + reflexivity.
    + rewrite run_cons, IH. cbn [most_recent_phase].
      destruct (most_recent_phase later) as [p|]; [reflexivity|].
      apply currentState_handle.
  - cbv. repeat split.
Qed.

(** The predicate of [prev.some] decides the dedup rule entry by entry. *)
Lemma abs_diff_lt_1000_spec (a b : TimeValue) :
  abs_diff_lt_1000 a b = true <-> within_1000ms a b.
Proof.
  unfold within_1000ms. split.
  - destruct a as [x|], b as [y|]; cbn; try discriminate.
    intros H. exists x, y. repeat split. now apply Z.ltb_lt.
  - intros (x & y & -> & -> & H). cbn. now apply Z.ltb_lt.
Qed.

Lemma Speaker_eqb_spec (a b : Speaker) : Speaker_eqb a b = true <-> a = b.
Proof. destruct a, b; cbn; split; congruence. Qed.

Lemma same_transcript_spec (u : TranscriptUpdate) (t : Transcript) :
  same_transcript u t = true <->
  text t = content u
  /\ speaker t = speaker_of (role u)
  /\ within_1000ms (timestamp t) (update_time u).
Proof.
  unfold same_transcript.
  rewrite !andb_true_iff, String.eqb_eq, Speaker_eqb_spec,
    abs_diff_lt_1000_spec.
  tauto.
Qed.

Lemma some_is_duplicate (u : TranscriptUpdate) (log : list Transcript) :
  existsb (same_transcript u) log = true <-> is_duplicate u log.
Proof.
  unfold is_duplicate. rewrite existsb_exists.
  split; intros (t & Hin & H); exists t; split; trivial;
    now apply same_transcript_spec.
Qed.

Lemma transcripts_handleTranscriptUpdate (u : TranscriptUpdate) (s : Tracker) :
  transcripts (handleTranscriptUpdate u s) =
  if existsb (same_transcript u) (transcripts s)
  then transcripts s
  else transcripts s ++ [entry_of u].
Proof. destruct u as [[|] c t]; reflexivity. Qed.

Lemma app_one_neq {A : Type} (l : list A) (x : A) : l ++ [x] <> l.
Proof.
  intros H. apply (f_equal (@List.length A)) in H.
  rewrite length_app in H. cbn in H. lia.
Qed.

(** C8. An out-of-band update is discarded (the log stays as it is)
    exactly when an entry of the log has the same text, the same speaker and
    a time stamp less than 1000ms away; otherwise its entry is appended.
    Hence, on an empty log, the update (user, hello, T) submitted twice
    leaves one entry, a following update at T+999 is not appended and one
    at T+1001 is. *)
Theorem C8_dedup_rule :
  (forall (u : TranscriptUpdate) (s : Tracker),
     (is_duplicate u (transcripts s) <->
      transcripts (handleTranscriptUpdate u s) = transcripts s)
     /\ (~ is_duplicate u (transcripts s) <->
         transcripts (handleTranscriptUpdate u s) =
         transcripts s ++ [entry_of u]))
  /\ (forall T : Z,
        let hello (t : Z) := {| role := role_user; content := "hello";
                                update_time := Ms t |} in
        let once := handleTranscriptUpdate (hello T) initial in
        let twice := handleTranscriptUpdate (hello T) once in
        transcripts once = [entry_of (hello T)]
        /\ transcripts twice = [entry_of (hello T)]
        /\ transcripts (handleTranscriptUpdate (hello (T + 999)) twice) =
           [entry_of (hello T)]
        /\ transcripts (handleTranscriptUpdate (hello (T + 1001)) twice) =
           [entry_of (hello T); entry_of (hello (T + 1001))]).
Proof.
  split.
  - intros u s. rewrite transcripts_handleTranscriptUpdate.
    rewrite <- some_is_duplicate.
    destruct (existsb (same_transcript u) (transcripts s)); split; split;
      intros H; try reflexivity; try congruence.
    + symmetry in H. now apply app_one_neq in H.
    + now apply app_one_neq in H.
  - intros T hello once twice.
    assert (H0 : (Z.abs (T - T) <? 1000) = true) by (apply Z.ltb_lt; lia).
    assert (H1 : (Z.abs (T - (T + 999)) <? 1000) = true)
      by (apply Z.ltb_lt; lia).
    assert (H2 : (Z.abs (T - (T + 1001)) <? 1000) = false)
      by (apply Z.ltb_ge; lia).
    subst once twice hello.
    rewrite !transcripts_handleTranscriptUpdate.
    cbn -[Z.abs Z.ltb Z.add Z.sub]. rewrite H0.
    cbn -[Z.abs Z.ltb Z.add Z.sub]. rewrite H1, H2.
    repeat split.
Qed.

(** At a distance of exactly 1000ms the update is appended: the comparison
    of the source is strict. *)
Lemma dedup_at_1000ms (T : Z) (txt : string) (r : Role) :
  let first := {| role := r; content := txt; update_time := Ms T |} in
  let second := {| role := r; content := txt; update_time := Ms (T + 1000) |} in
  transcripts
    (handleTranscriptUpdate second (handleTranscriptUpdate first initial)) =
  [entry_of first; entry_of second].
Proof.
  intros first second. subst first second.
  assert (H : (Z.abs (T - (T + 1000)) <? 1000) = false) by (apply Z.ltb_ge; lia).
  rewrite !transcripts_handleTranscriptUpdate.
  cbn -[Z.abs Z.ltb Z.add Z.sub]. unfold same_transcript.
  cbn -[Z.abs Z.ltb Z.add Z.sub].
  rewrite String.eqb_refl, H.
  destruct r; reflexivity.
Qed.

(** An update whose time stamp is not a date is never a duplicate, not
    even of itself. *)
Lemma dedup_invalid_date (txt : string) (r : Role) (s : Tracker) :
  let u := {| role := r; content := txt; update_time := NaN |} in
  transcripts (handleTranscriptUpdate u s) = transcripts s ++ [entry_of u].
Proof.
  intros u. rewrite transcripts_handleTranscriptUpdate.
  replace (existsb (same_transcript u) (transcripts s)) with false;
    [reflexivity|].
  symmetry. induction (transcripts s) as [|t log IH]; [reflexivity|].
  cbn [existsb]. rewrite IH, orb_false_r.
  unfold same_transcript, u. cbn.
  destruct (timestamp t); apply andb_false_r.
Qed.

(** C9. A user transcript event is committed (entry appended as final,
    last-user pointer set) exactly when it carries final=true and a
    non-empty text, and changes nothing otherwise; a bot transcript event
    with a non-empty text is committed at once as final; an event whose text
    is empty or missing changes nothing. *)
Theorem C9_transcript_events :
  forall (now : Z) (data : option TranscriptData) (s : Tracker),
    handleUserTranscript now data s =
      match event_text data, event_final data with
      | Some txt, true => commit user txt now s
      | _, _ => s
      end
    /\ handleBotTranscript now data s =
      match event_text data with
      | Some txt => commit bot txt now s
      | None => s
      end.
Proof.
  intros now [[[[|c rest]|] [[|]|]]|] s; split; reflexivity.
Qed.

(** C10. An out-of-band update always sets the last-utterance pointer of
    its role to its content (and leaves the other pointer alone), also
    when the update is a duplicate and the log is left as it is. *)
Theorem C10_pointer_set_unconditionally :
  forall (u : TranscriptUpdate) (s : Tracker),
    let s' := handleTranscriptUpdate u s in
    match role u with
    | role_assistant =>
        lastBotTranscript s' = Some (content u)
        /\ lastUserTranscript s' = lastUserTranscript s
    | role_user =>
        lastUserTranscript s' = Some (content u)
        /\ lastBotTranscript s' = lastBotTranscript s
    end
    /\ (is_duplicate u (transcripts s) -> transcripts s' = transcripts s).
Proof.
  intros u s s'. split.
  - subst s'. unfold_handlers. destruct (role u); split; reflexivity.
  - intros H. subst s'. rewrite transcripts_handleTranscriptUpdate.
    apply some_is_duplicate in H. now rewrite H.
Qed.

(** A duplicate that moves the pointer: the log already holds "hello" from
    the user at 5000 while the pointer shows a later utterance; the update
    (user, hello, 5400) leaves the log alone and sets the pointer back. *)
Example pointer_moves_on_duplicate :
  let s := {| currentState := IDLE; isBotSpeaking := false;
              isUserSpeaking := false; isBotProcessing := false;
              transcripts :=
                [ {| text := "hello"; speaker := user; timestamp := Ms 5000;
                     final := Some true |};
                  {| text := "bye"; speaker := user; timestamp := Ms 5200;
                     final := Some true |} ];
              lastUserTranscript := Some "bye";
              lastBotTranscript := None |} in
  let u := {| role := role_user; content := "hello";
              update_time := Ms 5400 |} in
  transcripts (handleTranscriptUpdate u s) = transcripts s
  /\ lastUserTranscript (handleTranscriptUpdate u s) = Some "hello".
Proof. split; reflexivity. Qed.

End ConversationFacts.

(** * Facts about the connection manager *)

Module ConnectionFacts.

Import Connection.
Local Open Scope string_scope.
Local Open Scope Q_scope.

Lemma Qlt_bool_iff (a b : Q) : Qlt_bool a b = true <-> a < b.
Proof.
  unfold Qlt_bool. rewrite negb_true_iff, <- not_true_iff_false, Qle_bool_iff.
  split; [apply Qnot_le_lt | apply Qlt_not_le].
Qed.

Lemma Qge_bool_iff (a b : Q) : Qge_bool a b = true <-> b <= a.
Proof. apply Qle_bool_iff. Qed.

Section Disconnect.

Variable options : ConnectionManagerOptions.

(** What a disconnect event that starts a timer did. *)
Lemma disconnect_scheduled (s : ConnectionState) (random d : Q) :
  snd (step options s (Disconnected random)) = Some d ->
  isConnected s = true
  /\ number (reconnectAttempts s) < maxReconnectAttempts options
  /\ d = calculateReconnectDelay options (S (reconnectAttempts s)) random
  /\ fst (step options s (Disconnected random)) =
     {| isConnected := isConnected s;
        isConnecting := isConnecting s;
        isReconnecting := true;
        reconnectAttempts := S (reconnectAttempts s);
        lastError := lastError s;
        transportState := transportState s |}.
Proof.
  cbn [step]. unfold handleDisconnect.
  destruct (isConnected s) eqn:Hc; cbn [andb].
  - destruct (Qlt_bool _ _) eqn:Hlt.
    + cbn [fst snd]. intros [= <-]. apply Qlt_bool_iff in Hlt. now repeat split.
    + destruct (Qge_bool _ _); discriminate.
  - destruct (Qge_bool _ _); discriminate.
Qed.

(** The guard is also sufficient. *)
Lemma disconnect_schedules (s : ConnectionState) (random : Q) :
  isConnected s = true ->
  number (reconnectAttempts s) < maxReconnectAttempts options ->
  step options s (Disconnected random) =
  ({| isConnected := isConnected s;
      isConnecting := isConnecting s;
      isReconnecting := true;
      reconnectAttempts := S (reconnectAttempts s);
      lastError := lastError s;
      transportState := transportState s |},
   Some (calculateReconnectDelay options (S (reconnectAttempts s)) random)).
Proof.
  intros Hc Hlt. apply Qlt_bool_iff in Hlt.
  cbn [step]. unfold handleDisconnect. now rewrite Hc, Hlt.
Qed.

(** With the budget used up, a disconnect event starts nothing and records
    the terminal error. *)
Lemma disconnect_exhausted (s : ConnectionState) (random : Q) :
  maxReconnectAttempts options <= number (reconnectAttempts s) ->
  step options s (Disconnected random) =
  ({| isConnected := isConnected s;
      isConnecting := isConnecting s;
      isReconnecting := false;
      reconnectAttempts := reconnectAttempts s;
      lastError := Some "Maximum reconnection attempts reached";
      transportState := transportState s |},
   None).
Proof.
  intros Hge. cbn [step]. unfold handleDisconnect.
  assert (Hlt : Qlt_bool (number (reconnectAttempts s))
                  (maxReconnectAttempts options) = false).
  { apply not_true_iff_false. rewrite Qlt_bool_iff. now apply Qle_not_lt. }
  apply Qge_bool_iff in Hge.
  now rewrite Hlt, andb_false_r, Hge.
Qed.


End Disconnect.

(** The jitter factor stays in its band. *)
Lemma jitter_band (random : Q) :
  unit_interval random ->
  0.8 <= 0.8 + random * 0.4 /\ 0.8 + random * 0.4 <= 1.2.
Proof. intros [H0 H1]. split; lra. Qed.

(** C2. The delay of every reconnection timer the manager starts is
    min(reconnectDelay * reconnectBackoffMultiplier^attempt * jitter,
    maxReconnectDelay), where attempt is the number of the attempt being
    scheduled, counted from 1 (the counter before the event plus one), and
    jitter = 0.8 + 0.4 * random lies in [0.8, 1.2]; options left out default
    to reconnectDelay 1000, reconnectBackoffMultiplier 1.5 and
    maxReconnectDelay 30000. *)
Theorem C2_delay_formula :
  forall (options : ConnectionManagerOptions) (s : ConnectionState)
         (random d : Q),
    unit_interval random ->
    snd (step options s (Disconnected random)) = Some d ->
    let attempt := S (reconnectAttempts s) in
    let jitter := 0.8 + random * 0.4 in
    d = Qmin (reconnectDelay options
              * reconnectBackoffMultiplier options ^ Z.of_nat attempt
              * jitter)
             (maxReconnectDelay options)
    /\ (0.8 <= jitter /\ jitter <= 1.2)
    /\ reconnectAttempts (fst (step options s (Disconnected random))) = attempt
    /\ reconnectDelay no_options = 1000
    /\ reconnectBackoffMultiplier no_options = 1.5
    /\ maxReconnectDelay no_options = 30000.
Proof.
  intros options s random d Hr Hd attempt jitter.
  apply disconnect_scheduled in Hd as (_ & _ & -> & Hs).
  split; [reflexivity|].
  split; [now apply jitter_band|].
  rewrite Hs. repeat split.
Qed.

Lemma C2_delay_formula_witness :
  unit_interval (1 # 2)
  /\ snd (step no_options connected (Disconnected (1 # 2))) =
     Some (calculateReconnectDelay no_options 1 (1 # 2))
  /\ calculateReconnectDelay no_options 1 (1 # 2) =
     Qmin (reconnectDelay no_options
           * reconnectBackoffMultiplier no_options ^ 1
           * (0.8 + (1 # 2) * 0.4))
          (maxReconnectDelay no_options).
Proof.
  assert (Hr : unit_interval (1 # 2)) by (split; reflexivity || discriminate).
  split; [exact Hr|].
  split; [reflexivity|].
  exact (proj1 (C2_delay_formula no_options connected (1 # 2)
                  (calculateReconnectDelay no_options 1 (1 # 2))
                  Hr eq_refl)).
Defined.

(** The delay of attempt [n] without options, as a function of the draw. *)
Lemma default_delay (n : nat) (random : Q) :
  calculateReconnectDelay no_options n random =
  Qmin (1000 * 1.5 ^ Z.of_nat n * (0.8 + random * 0.4)) 30000.
Proof. reflexivity. Qed.

(** C3, counterexample. The first attempt after a connection, with the
    draw 1/2 (jitter 1), is scheduled after 1500ms, outside [800, 1200]. *)
Lemma C3_first_delay_counterexample :
  reconnectAttempts connected = 0%nat
  /\ unit_interval (1 # 2)
  /\ (exists d : Q,
        snd (step no_options connected (Disconnected (1 # 2))) = Some d
        /\ d == 1500
        /\ ~ (800 <= d /\ d <= 1200)).
Proof.
  split; [reflexivity|].
  split; [split; reflexivity || discriminate|].
  eexists. split; [reflexivity|].
  split; [reflexivity|].
  intros [_ H]. revert H. vm_compute. intros H. now apply H.
Qed.

(** C3, amended. Without options and for every draw, the delay scheduled
    for attempt 1 (counter at 0) lies in [1200, 1800], the delay scheduled
    for attempt 3 (counter at 2) lies in [2700, 4050], and every scheduled
    delay is at most 30000. *)
Theorem C3_delay_bounds :
  forall (s : ConnectionState) (random d : Q),
    unit_interval random ->
    snd (step no_options s (Disconnected random)) = Some d ->
    (reconnectAttempts s = 0%nat -> 1200 <= d /\ d <= 1800)
    /\ (reconnectAttempts s = 2%nat -> 2700 <= d /\ d <= 4050)
    /\ d <= 30000.
Proof.
  intros s random d [H0 H1] Hd.
  apply disconnect_scheduled in Hd as (_ & _ & -> & _).
  rewrite default_delay.
  split; [|split].
  - intros ->.
    change (1.5 ^ Z.of_nat 1) with 1.5.
    destruct (Q.min_spec (1000 * 1.5 * (0.8 + random * 0.4)) 30000)
      as [[Hlt ->]|[Hle ->]]; split; lra.
  - intros ->.
    change (1.5 ^ Z.of_nat 3) with (1.5 * 1.5 * 1.5).
    destruct (Q.min_spec (1000 * (1.5 * 1.5 * 1.5) * (0.8 + random * 0.4))
                30000)
      as [[Hlt ->]|[Hle ->]]; split; lra.
  - apply Q.le_min_r.
Qed.

Lemma C3_delay_bounds_witness :
  unit_interval (1 # 2)
  /\ snd (step no_options connected (Disconnected (1 # 2))) =
     Some (calculateReconnectDelay no_options 1 (1 # 2))
  /\ 1200 <= calculateReconnectDelay no_options 1 (1 # 2)
  /\ calculateReconnectDelay no_options 1 (1 # 2) <= 1800.
Proof.
  assert (Hr : unit_interval (1 # 2)) by (split; reflexivity || discriminate).
  split; [exact Hr|].
  split; [reflexivity|].
  exact (proj1 (C3_delay_bounds connected (1 # 2)
                  (calculateReconnectDelay no_options 1 (1 # 2))
                  Hr eq_refl) eq_refl).
Defined.

(** *** The listener and its closure *)

Section Deliveries.

Variable options : ConnectionManagerOptions.

(** What a run of the listener that starts a timer did, for any state its
    closure captured. *)
Lemma listener_scheduled (connectionState prev : ConnectionState)
    (random d : Q) :
  snd (handleDisconnect options connectionState random prev) = Some d ->
  isConnected connectionState = true
  /\ number (reconnectAttempts connectionState) < maxReconnectAttempts options
  /\ d = calculateReconnectDelay options
           (S (reconnectAttempts connectionState)) random
  /\ fst (handleDisconnect options connectionState random prev) =
     {| isConnected := isConnected prev;
        isConnecting := isConnecting prev;
        isReconnecting := true;
        reconnectAttempts := S (reconnectAttempts connectionState);
        lastError := lastError prev;
        transportState := transportState prev |}.
Proof.
  unfold handleDisconnect.
  destruct (isConnected connectionState) eqn:Hc; cbn [andb].
  - destruct (Qlt_bool _ _) eqn:Hlt.
    + cbn [fst snd]. intros [= <-]. apply Qlt_bool_iff in Hlt.
      now repeat split.
    + destruct (Qge_bool _ _); discriminate.
  - destruct (Qge_bool _ _); discriminate.
Qed.

Lemma listener_schedules (connectionState prev : ConnectionState)
    (random : Q) :
  isConnected connectionState = true ->
  number (reconnectAttempts connectionState) < maxReconnectAttempts options ->
  handleDisconnect options connectionState random prev =
  ({| isConnected := isConnected prev;
      isConnecting := isConnecting prev;
      isReconnecting := true;
      reconnectAttempts := S (reconnectAttempts connectionState);
      lastError := lastError prev;
      transportState := transportState prev |},
   Some (calculateReconnectDelay options
           (S (reconnectAttempts connectionState)) random)).
Proof.
  intros Hc Hlt. apply Qlt_bool_iff in Hlt.
  unfold handleDisconnect. now rewrite Hc, Hlt.
Qed.

Lemma listener_exhausted (connectionState prev : ConnectionState)
    (random : Q) :
  maxReconnectAttempts options <= number (reconnectAttempts connectionState) ->
  handleDisconnect options connectionState random prev =
  ({| isConnected := isConnected prev;
      isConnecting := isConnecting prev;
      isReconnecting := false;
      reconnectAttempts := reconnectAttempts prev;
      lastError := Some "Maximum reconnection attempts reached";
      transportState := transportState prev |},
   None).
Proof.
  intros Hge. unfold handleDisconnect.
  assert (Hlt : Qlt_bool (number (reconnectAttempts connectionState))
                  (maxReconnectAttempts options) = false).
  { apply not_true_iff_false. rewrite Qlt_bool_iff. now apply Qle_not_lt. }
  apply Qge_bool_iff in Hge.
  now rewrite Hlt, andb_false_r, Hge.
Qed.

(** The delivery of a disconnect event, in terms of the listener. *)
Lemma deliver_disconnect (c : Component) (random : Q) :
  deliver options c (Deliver (Disconnected random)) =
  ({| current :=
        fst (handleDisconnect options (captured c) random (current c));
      captured := captured c;
      reported := reported c |},
   snd (handleDisconnect options (captured c) random (current c))).
Proof.
  cbn [deliver].
  now destruct (handleDisconnect options (captured c) random (current c)).
Qed.

Lemma deliver_render (c : Component) :
  deliver options c Render =
  ({| current := current c; captured := current c; reported := reported c |},
   None).
Proof. reflexivity. Qed.

Lemma play_cons (d : Delivery) (later : list Delivery) (c : Component) :
  play options (d :: later) c =
  (fst (play options later (fst (deliver options c d))),
   (timers (snd (deliver options c d))
    ++ snd (play options later (fst (deliver options c d))))%list).
Proof.
  cbn [play]. destruct (deliver options c d) as [c1 scheduled].
  cbn [fst snd]. now destruct (play options later c1).
Qed.

End Deliveries.

(** C4, counterexample. Two disconnect events reach a connected component
    before it re-renders.  The first starts a timer and sets the counter to
    1.  The second runs the same listener, whose closure still holds the
    counter 0: it starts a timer too, and the counter is 1 afterwards as it
    was before, not 2. *)
Lemma C4_same_render_counterexample :
  let c1 :=
    fst (deliver no_options connected_component
           (Deliver (Disconnected (1 # 2)))) in
  let r2 := deliver no_options c1 (Deliver (Disconnected (1 # 4))) in
  reconnectAttempts (current c1) = 1%nat
  /\ snd r2 = Some (calculateReconnectDelay no_options 1 (1 # 4))
  /\ reconnectAttempts (current (fst r2)) = 1%nat
  /\ reconnectAttempts (current (fst r2))
     <> S (reconnectAttempts (current c1)).
Proof. cbv zeta. repeat split. discriminate. Qed.

(** C4, amended. A disconnect event starts a reconnection timer only when
    the state its listener captured at the last render has isConnected
    true and a counter below maxReconnectAttempts (5 when the option is
    left out); when it starts one, the reconnecting flag is set and the
    counter is set to the captured count plus one, which is the current
    count plus one whenever the component has re-rendered since its state
    last changed. *)
Theorem C4_reconnect_guard :
  forall (options : ConnectionManagerOptions) (c : Component)
         (random d : Q),
    snd (deliver options c (Deliver (Disconnected random))) = Some d ->
    let c' := fst (deliver options c (Deliver (Disconnected random))) in
    (isConnected (captured c) = true
     /\ number (reconnectAttempts (captured c))
        < maxReconnectAttempts options)
    /\ isReconnecting (current c') = true
    /\ reconnectAttempts (current c') = S (reconnectAttempts (captured c))
    /\ (rendered c ->
        reconnectAttempts (current c') = S (reconnectAttempts (current c)))
    /\ maxReconnectAttempts no_options = 5.
Proof.
  intros options c random d Hd c'. subst c'.
  rewrite deliver_disconnect in *. cbn [fst snd] in *.
  apply listener_scheduled in Hd as (Hc & Hlt & _ & Hs).
  rewrite Hs. cbn [current isReconnecting reconnectAttempts].
  repeat split; trivial.
  intros Hr. now rewrite Hr.
Qed.

Lemma C4_reconnect_guard_witness :
  snd (deliver no_options connected_component
         (Deliver (Disconnected (1 # 2)))) =
  Some (calculateReconnectDelay no_options 1 (1 # 2))
  /\ isConnected (captured connected_component) = true
  /\ reconnectAttempts
       (current (fst (deliver no_options connected_component
                        (Deliver (Disconnected (1 # 2)))))) = 1%nat.
Proof.
  split; [reflexivity|].
  pose proof (C4_reconnect_guard no_options connected_component (1 # 2)
                (calculateReconnectDelay no_options 1 (1 # 2)) eq_refl)
    as [[Hc _] [_ [Hn _]]].
  split; [exact Hc | exact Hn].
Defined.

(** *** Runs *)

Section Runs.

Variable options : ConnectionManagerOptions.

Lemma run_step (ev : Event) (later : list Event) (s : ConnectionState) :
  run options (ev :: later) s =
  (fst (run options later (fst (step options s ev))),
   (timers (snd (step options s ev))
    ++ snd (run options later (fst (step options s ev))))%list).
Proof.
  cbn [run]. destruct (step options s ev) as [s1 scheduled].
  cbn [fst snd]. now destruct (run options later s1).
Qed.

Lemma state_after_cons (ev : Event) (later : list Event) (s : ConnectionState) :
  state_after options (ev :: later) s =
  state_after options later (fst (step options s ev)).
Proof. unfold state_after. now rewrite run_step. Qed.

Lemma number_lt (a b : nat) : (a < b)%nat -> number a < number b.
Proof. intros H. unfold number. rewrite <- Zlt_Qlt. lia. Qed.

(** Disconnect events in a row, while the budget lasts: each one starts a
    timer and counts. *)
Lemma run_disconnects (draws : list Q) :
  forall s : ConnectionState,
    isConnected s = true ->
    number (reconnectAttempts s + List.length draws)
      <= maxReconnectAttempts options ->
    let r := run options (disconnects draws) s in
    List.length (snd r) = List.length draws
    /\ reconnectAttempts (fst r) =
       (reconnectAttempts s + List.length draws)%nat
    /\ isConnected (fst r) = true
    /\ lastError (fst r) = lastError s
    /\ transportState (fst r) = transportState s
    /\ (draws <> [] -> isReconnecting (fst r) = true).
Proof.
  induction draws as [|random rest IH]; intros s Hc Hmax r; subst r.
  - cbn. rewrite Nat.add_0_r. now repeat split.
  - cbn [disconnects map]. fold (disconnects rest). rewrite run_step.
    assert (Hlt : number (reconnectAttempts s) < maxReconnectAttempts options).
    { eapply Qlt_le_trans; [|exact Hmax]. apply number_lt. cbn. lia. }
    rewrite (disconnect_schedules options s random Hc Hlt). cbn [fst snd].
    match goal with |- context [run options _ ?s1] => set (s1' := s1) end.
    destruct (IH s1') as (Hlen & Hn & Hc' & He & Ht & Hr).
    { exact Hc. }
    { cbn [reconnectAttempts s1']. cbn [List.length] in Hmax.
      now rewrite Nat.add_succ_comm. }
    cbn [timers]. cbn [List.length app].
    rewrite Hlen, Hn, Hc', He, Ht. cbn [reconnectAttempts lastError
      transportState s1'].
    repeat split; try lia.
    intros _. destruct rest as [|r' rest'].
    + reflexivity.
    + now apply Hr.
Qed.

(** Once the budget is used up and the flag is down, nothing but a reset
    of the counter raises the flag or starts a timer again. *)
Lemma exhausted_stays (evs : list Event) :
  forall s : ConnectionState,
    maxReconnectAttempts options <= number (reconnectAttempts s) ->
    isReconnecting s = false ->
    no_reset evs = true ->
    let r := run options evs s in
    snd r = []
    /\ isReconnecting (fst r) = false
    /\ reconnectAttempts (fst r) = reconnectAttempts s.
Proof.
  induction evs as [|ev later IH]; intros s Hmax Hr Hno r; subst r.
  - now cbn.
  - cbn [no_reset forallb] in Hno. apply andb_true_iff in Hno as [Hev Hno].
    apply negb_true_iff in Hev. rewrite run_step.
    assert (H1 : snd (step options s ev) = None
                 /\ isReconnecting (fst (step options s ev)) = false
                 /\ reconnectAttempts (fst (step options s ev)) =
                    reconnectAttempts s).
    { destruct ev as [ts|random|m|m| | |m| | |]; try (cbn; now rewrite ?Hr).
      - cbn [step fst snd]. unfold onTransportState.
        cbn [resets_counter enters_connected] in Hev.
        destruct (truthy (Some ts)); [|now rewrite Hr].
        rewrite Hev. cbn. now rewrite Hr.
      - now rewrite (disconnect_exhausted options s random Hmax). }
    destruct H1 as (Hs & Hr1 & Hn1).
    destruct (IH (fst (step options s ev))) as (Ht & Hr2 & Hn2); trivial.
    { now rewrite Hn1. }
    rewrite Hs, Ht. cbn [fst snd timers app]. now rewrite Hr2, Hn2, Hn1.
Qed.

(** *** The flags and the raw transport state *)

Lemma step_coherent (s : ConnectionState) (ev : Event) :
  coherent s -> coherent (fst (step options s ev)).
Proof.
  intros [Hc Hr]. unfold coherent.
  destruct ev as [ts|random|m|m| | |m| | |]; cbn [step fst];
    try (cbn; now split).
  - unfold onTransportState.
    destruct (truthy (Some ts)); [|now split].
    destruct (connected_or_ready ts) eqn:Hts; cbn; rewrite ?Hts.
    + split; [reflexivity | discriminate].
    + split; [discriminate|].
      intros H. apply andb_true_iff in H as [_ H].
      left. now apply String.eqb_eq.
  - unfold handleDisconnect.
    destruct (isConnected s) eqn:Hcs; cbn [andb].
    + destruct (Qlt_bool _ _); [|destruct (Qge_bool _ _)]; cbn;
        rewrite ?Hcs; split; auto; discriminate.
    + destruct (Qge_bool _ _); cbn; rewrite ?Hcs; split; auto; discriminate.
Qed.

Lemma run_coherent (evs : list Event) :
  forall s : ConnectionState,
    coherent s -> coherent (state_after options evs s).
Proof.
  induction evs as [|ev later IH]; intros s H.
  - exact H.
  - rewrite state_after_cons. apply IH. now apply step_coherent.
Qed.



End Runs.

(** *** The reconnection budget *)

Section RenderedDeliveries.

Variable options : ConnectionManagerOptions.

(** Disconnect events with a re-render after each one do to the component
    what the run does to the state. *)
Lemma play_rendered_disconnects (draws : list Q) :
  forall c : Component,
    rendered c ->
    play options (with_renders (disconnects draws)) c =
    ({| current := fst (run options (disconnects draws) (current c));
        captured := fst (run options (disconnects draws) (current c));
        reported := reported c |},
     snd (run options (disconnects draws) (current c))).
Proof.
  induction draws as [|random rest IH]; intros [s s' ts] Hren;
    unfold rendered in Hren; cbn [current captured reported] in *; subst s'.
  - reflexivity.
  - cbn [disconnects map with_renders flat_map app].
    fold (disconnects rest). fold (with_renders (disconnects rest)).
    rewrite play_cons, deliver_disconnect. cbn [fst snd current captured].
    rewrite play_cons. cbn [deliver fst snd current captured reported].
    rewrite IH by reflexivity. cbn [fst snd current reported timers app].
    rewrite run_step. cbn [step fst snd]. reflexivity.
Qed.

(** Once the budget is used up, also in the listener's closure, and the
    flag is down, no delivery but a reset of the counter raises the flag
    or starts a timer again. *)
Lemma quiet_stays (ds : list Delivery) :
  forall c : Component,
    maxReconnectAttempts options <= number (reconnectAttempts (captured c)) ->
    maxReconnectAttempts options <= number (reconnectAttempts (current c)) ->
    isReconnecting (current c) = false ->
    quiet ds = true ->
    let r := play options ds c in
    snd r = []
    /\ isReconnecting (current (fst r)) = false
    /\ reconnectAttempts (current (fst r)) = reconnectAttempts (current c).
Proof.
  induction ds as [|d later IH]; intros c Hcap Hcur Hr Hq r; subst r.
  - now cbn.
  - cbn [quiet forallb] in Hq. apply andb_true_iff in Hq as [Hd Hq].
    fold (quiet later) in Hq. rewrite play_cons.
    assert (H1 : snd (deliver options c d) = None
                 /\ isReconnecting (current (fst (deliver options c d)))
                    = false
                 /\ reconnectAttempts (current (fst (deliver options c d)))
                    = reconnectAttempts (current c)
                 /\ maxReconnectAttempts options
                    <= number (reconnectAttempts
                                 (captured (fst (deliver options c d))))).
    { destruct d as [|ev]; [now cbn|].
      apply negb_true_iff in Hd.
      destruct ev as [ts|random|m|m| | |m| | |];
        try (cbn; now rewrite ?Hr); try discriminate Hd.
      - cbn [deliver]. destruct (String.eqb ts (reported c)); [now cbn|].
        cbn [fst snd current captured]. unfold onTransportState.
        cbn [resets_counter enters_connected] in Hd.
        destruct (truthy (Some ts)); [|now rewrite Hr].
        rewrite Hd. cbn. now rewrite Hr.
      - rewrite deliver_disconnect.
        rewrite (listener_exhausted options _ _ random Hcap). now cbn. }
    destruct H1 as (Hs & Hr1 & Hn1 & Hcap1).
    destruct (IH (fst (deliver options c d))) as (Ht & Hr2 & Hn2); trivial.
    { now rewrite Hn1. }
    rewrite Hs, Ht. cbn [fst snd timers app]. now rewrite Hr2, Hn2, Hn1.
Qed.

End RenderedDeliveries.

(** C5, counterexample. With the default budget of 5, five disconnect
    events in a row after a connection start five timers and leave the
    manager reconnecting with no error recorded: the terminal state is not
    reached yet. *)
Lemma C5_five_disconnects_counterexample :
  let draws := [1 # 2; 1 # 2; 1 # 2; 1 # 2; 1 # 2] in
  let r5 := run no_options (disconnects draws) connected in
  maxReconnectAttempts no_options = 5
  /\ List.length (snd r5) = 5%nat
  /\ reconnectAttempts (fst r5) = 5%nat
  /\ isReconnecting (fst r5) = true
  /\ lastError (fst r5) = None
  /\ ~ (isReconnecting (fst r5) = false
        /\ lastError (fst r5) =
           Some "Maximum reconnection attempts reached").
Proof.
  cbv zeta. repeat split; try reflexivity.
  intros [H _]. revert H. vm_compute. discriminate.
Qed.

(** C5, amended. With maxReconnectAttempts = 5, starting connected with
    the counter at 0 and with a re-render after every disconnect event:
    five disconnect events in a row each start a timer, after them the
    counter is 5, the manager is reconnecting and lastError is as before.
    The sixth disconnect event starts no timer, takes the reconnecting flag
    down and sets lastError to "Maximum reconnection attempts reached".
    From then on, whatever events and re-renders follow, no timer is
    started and the flag stays down for as long as the counter is not set
    back to 0 (by a resolved connect() or by the transport reaching
    connected or ready). *)
Theorem C5_budget_exhausted :
  forall (options : ConnectionManagerOptions) (c : Component)
         (draws : list Q) (random : Q) (ds : list Delivery),
    maxReconnectAttempts options == 5 ->
    rendered c ->
    isConnected (current c) = true ->
    reconnectAttempts (current c) = 0%nat ->
    List.length draws = 5%nat ->
    quiet ds = true ->
    let r5 := play options (with_renders (disconnects draws)) c in
    let r6 := deliver options (fst r5) (Deliver (Disconnected random)) in
    let r7 := play options ds (fst r6) in
    (List.length (snd r5) = 5%nat
     /\ reconnectAttempts (current (fst r5)) = 5%nat
     /\ isReconnecting (current (fst r5)) = true
     /\ lastError (current (fst r5)) = lastError (current c))
    /\ (snd r6 = None
        /\ isReconnecting (current (fst r6)) = false
        /\ lastError (current (fst r6)) =
           Some "Maximum reconnection attempts reached")
    /\ (snd r7 = []
        /\ isReconnecting (current (fst r7)) = false).
Proof.
  intros options c draws random ds Hmax Hren Hc Hn Hlen Hq r5 r6 r7.
  destruct (run_disconnects options draws (current c) Hc)
    as (H1 & H2 & _ & H4 & _ & H6).
  { rewrite Hn, Hlen, Hmax. cbn. discriminate. }
  assert (E5 : r5 = _)
    by exact (play_rendered_disconnects options draws c Hren).
  rewrite Hn, Hlen in *.
  assert (H5 : isReconnecting
                 (fst (run options (disconnects draws) (current c))) = true).
  { apply H6. intros ->. discriminate Hlen. }
  assert (Hfull : maxReconnectAttempts options
                  <= number (reconnectAttempts (captured (fst r5)))).
  { rewrite E5. cbn [fst captured]. rewrite H2, Hmax. cbn. discriminate. }
  assert (F6 : snd r6 = None
               /\ isReconnecting (current (fst r6)) = false
               /\ lastError (current (fst r6)) =
                  Some "Maximum reconnection attempts reached"
               /\ reconnectAttempts (current (fst r6)) =
                  reconnectAttempts (current (fst r5))
               /\ captured (fst r6) = captured (fst r5)).
  { unfold r6. rewrite deliver_disconnect.
    rewrite (listener_exhausted options _ _ random Hfull). now cbn. }
  destruct F6 as (F1 & F2 & F3 & F4 & F5).
  split; [rewrite E5; cbn [fst snd current]; now repeat split|].
  split; [now repeat split|].
  destruct (quiet_stays options ds (fst r6)) as (H7 & H8 & _); trivial.
  - now rewrite F5.
  - rewrite F4, E5. cbn [fst current]. rewrite H2, Hmax. cbn. discriminate.
  - now split.
Qed.

Lemma C5_budget_exhausted_witness :
  let draws := [1 # 2; 1 # 2; 1 # 2; 1 # 2; 1 # 2] in
  let ds := [Deliver (Disconnected (1 # 2));
             Deliver (TransportStateChanged "disconnected"); Render;
             Deliver (Disconnected (1 # 2))] in
  let r5 := play no_options (with_renders (disconnects draws))
              connected_component in
  let r6 := deliver no_options (fst r5) (Deliver (Disconnected (1 # 2))) in
  let r7 := play no_options ds (fst r6) in
  (maxReconnectAttempts no_options == 5
   /\ rendered connected_component
   /\ isConnected (current connected_component) = true
   /\ reconnectAttempts (current connected_component) = 0%nat
   /\ List.length draws = 5%nat
   /\ quiet ds = true)
  /\ lastError (current (fst r6)) =
     Some "Maximum reconnection attempts reached"
  /\ snd r7 = []
  /\ isReconnecting (current (fst r7)) = false.
Proof.
  cbv zeta.
  split; [repeat split|].
  pose proof (C5_budget_exhausted no_options connected_component
                [1 # 2; 1 # 2; 1 # 2; 1 # 2; 1 # 2] (1 # 2)
                [Deliver (Disconnected (1 # 2));
                 Deliver (TransportStateChanged "disconnected"); Render;
                 Deliver (Disconnected (1 # 2))]
                (Qeq_refl 5) eq_refl eq_refl eq_refl eq_refl eq_refl)
    as (_ & (_ & _ & H6) & (H7 & H8)).
  split; [exact H6|]. split; [exact H7 | exact H8].
Defined.

(** *** The counter *)

(** C6, counterexample. After a connection and one disconnect event the
    counter is 1; the user calls connect(), the transport reports
    connecting, and the promise of connect() resolves: that step sets the
    counter to 0 although it is no change of the raw transport state, which
    is connecting before and after. *)
Lemma C6_connect_resolved_counterexample :
  let evs := [TransportStateChanged "connecting";
              TransportStateChanged "connected";
              Disconnected (1 # 2);
              TransportStateChanged "disconnected";
              ConnectCalled;
              TransportStateChanged "connecting"] in
  let s := state_after no_options evs (initial "disconnected") in
  let s' := fst (step no_options s ConnectResolved) in
  reconnectAttempts s = 1%nat
  /\ reconnectAttempts s' = 0%nat
  /\ enters_connected ConnectResolved = false
  /\ transportState s = "connecting"
  /\ transportState s' = "connecting".
Proof. cbv zeta. repeat split. Qed.

(** C6, amended. The counter is set to 0 by every change of the raw
    transport state into connected or ready and by every resolved
    connect(); no other step lowers it. *)
Theorem C6_counter_resets :
  forall (options : ConnectionManagerOptions) (s : ConnectionState),
    (forall ts : string,
       ts = "connected" \/ ts = "ready" ->
       reconnectAttempts
         (fst (step options s (TransportStateChanged ts))) = 0%nat)
    /\ reconnectAttempts (fst (step options s ConnectResolved)) = 0%nat
    /\ (forall ev : Event,
          resets_counter ev = false ->
          (reconnectAttempts s
           <= reconnectAttempts (fst (step options s ev)))%nat).
Proof.
  intros options s. split; [|split].
  - intros ts [-> | ->]; reflexivity.
  - reflexivity.
  - intros ev Hev.
    destruct ev as [ts|random|m|m| | |m| | |]; try (cbn; lia).
    + cbn [step fst]. unfold onTransportState.
      cbn [resets_counter enters_connected] in Hev.
      destruct (truthy (Some ts)); [|lia].
      rewrite Hev. cbn. lia.
    + cbn [step]. unfold handleDisconnect.
      destruct (_ && _); [cbn; lia|].
      destruct (Qge_bool _ _); cbn; lia.
    + discriminate Hev.
Qed.

(** *** The reconnecting flag *)




End ConnectionFacts.

(** * Invariants of the conversation tracker *)

Module TrackerInvariants.

Import Conversation ConversationFacts.
Local Open Scope string_scope.
Local Open Scope Z_scope.
Local Open Scope list_scope.

(** A property every allowed event keeps is kept by a run of allowed
    events. *)
Lemma run_keeps (allowed : Event -> bool) (P : Tracker -> Prop) :
  (forall ev s, allowed ev = true -> P s -> P (handle ev s)) ->
  forall evs s, forallb allowed evs = true -> P s -> P (run evs s).
Proof.
  intros Hstep. induction evs as [|ev later IH]; intros s Hall Hs.
  - exact Hs.
  - cbn [forallb] in Hall. apply andb_true_iff in Hall as [Hev Hall].
    rewrite run_cons. apply IH; [exact Hall|]. now apply Hstep.
Qed.

Lemma run_keeps_always (P : Tracker -> Prop) :
  (forall ev s, P s -> P (handle ev s)) ->
  forall evs s, P s -> P (run evs s).
Proof.
  intros Hstep evs s. apply (run_keeps (fun _ => true)).
  - intros ev s' _. apply Hstep.
  - now apply forallb_forall.
Qed.

(** The two transcript events, by the shape of their payload. *)
Lemma transcript_event_cases (now : Z) (data : option TranscriptData)
    (s : Tracker) :
  handleUserTranscript now data s =
    match event_text data, event_final data with
    | Some txt, true => commit user txt now s
    | _, _ => s
    end
  /\ handleBotTranscript now data s =
    match event_text data with
    | Some txt => commit bot txt now s
    | None => s
    end.
Proof.
  destruct data as [[[[|c rest]|] [[|]|]]|]; split; reflexivity.
Qed.

(** The log after one event, case by case. *)
Lemma transcripts_handle (ev : Event) (s : Tracker) :
  transcripts (handle ev s) = transcripts s
  \/ (exists t, transcripts (handle ev s) = transcripts s ++ [t])
  \/ (ev = ClearTranscripts /\ transcripts (handle ev s) = []).
Proof.
  destruct ev as [ | | | | | | | |now data|now data| |t|u];
    try (left; reflexivity).
  - cbn [handle]. rewrite (proj1 (transcript_event_cases now data s)).
    destruct (event_text data), (event_final data);
      first [left; reflexivity | right; left; eexists; reflexivity].
  - cbn [handle]. rewrite (proj2 (transcript_event_cases now data s)).
    destruct (event_text data);
      first [left; reflexivity | right; left; eexists; reflexivity].
  - right. right. split; reflexivity.
  - right. left. exists t. cbn [handle]. unfold addTranscript, seq.
    destruct (speaker t); reflexivity.
  - cbn [handle]. rewrite transcripts_handleTranscriptUpdate.
    destruct (existsb _ _);
      first [left; reflexivity | right; left; eexists; reflexivity].
Qed.

(** *** The log only grows *)

(** X1. As long as clearTranscripts() is not called, the log only grows at
    its end: after any run of events the old log is a prefix of the new
    one, and at most one entry per event was added. *)
Theorem X1_log_append_only :
  forall (evs : list Event) (s : Tracker),
    forallb keeps_log evs = true ->
    exists added : list Transcript,
      transcripts (run evs s) = transcripts s ++ added
      /\ (List.length added <= List.length evs)%nat.
Proof.
  induction evs as [|ev later IH]; intros s Hall.
  - exists []. split; [now rewrite app_nil_r | reflexivity].
  - cbn [forallb] in Hall. apply andb_true_iff in Hall as [Hev Hall].
    rewrite run_cons. destruct (IH (handle ev s) Hall) as (added & -> & Hlen).
    destruct (transcripts_handle ev s) as [-> | [[t ->] | [-> _]]].
    + exists added. split; [reflexivity | cbn; lia].
    + exists (t :: added). split; [now rewrite <- app_assoc | cbn; lia].
    + discriminate Hev.
Qed.

Lemma X1_log_append_only_witness :
  let evs := [BotTranscript 10 (Some {| data_text := Some "hi";
                                        data_final := None |});
              UserStartedSpeaking] in
  forallb keeps_log evs = true
  /\ exists added : list Transcript,
       transcripts (run evs initial) = transcripts initial ++ added
       /\ (List.length added <= List.length evs)%nat.
Proof.
  cbv zeta. split; [reflexivity|].
  exact (X1_log_append_only
           [BotTranscript 10 (Some {| data_text := Some "hi";
                                      data_final := None |});
            UserStartedSpeaking] initial eq_refl).
Defined.

(** *** Transcripts and speaking state do not interfere *)

Lemma transcript_part_frame (ev : Event) (s : Tracker) :
  is_transcript_op ev = false ->
  transcript_part (handle ev s) = transcript_part s.
Proof. destruct ev; try discriminate; reflexivity. Qed.

Lemma speaking_part_frame (ev : Event) (s : Tracker) :
  is_transcript_op ev = true ->
  speaking_part (handle ev s) = speaking_part s.
Proof.
  destruct ev as [ | | | | | | | |now data|now data| |t|u];
    try discriminate; intros _; cbn [handle].
  - rewrite (proj1 (transcript_event_cases now data s)).
    now destruct (event_text data), (event_final data).
  - rewrite (proj2 (transcript_event_cases now data s)).
    now destruct (event_text data).
  - reflexivity.
  - unfold addTranscript, seq. now destruct (speaker t).
  - unfold handleTranscriptUpdate, seq. now destruct (role u).
Qed.

Lemma transcript_part_congr (ev : Event) (s t : Tracker) :
  transcript_part s = transcript_part t ->
  transcript_part (handle ev s) = transcript_part (handle ev t).
Proof.
  destruct s as [c1 b1 u1 p1 log lu lb], t as [c2 b2 u2 p2 log' lu' lb'].
  unfold transcript_part. cbn [transcripts lastUserTranscript
    lastBotTranscript]. intros [= -> -> ->].
  destruct ev as [ | | | | | | | |now data|now data| |e|u];
    try reflexivity; cbn [handle].
  - rewrite !(proj1 (transcript_event_cases now data _)).
    now destruct (event_text data), (event_final data).
  - rewrite !(proj2 (transcript_event_cases now data _)).
    now destruct (event_text data).
  - unfold addTranscript, seq. now destruct (speaker e).
  - unfold handleTranscriptUpdate, seq. now destruct (role u).
Qed.

Lemma speaking_part_congr (ev : Event) (s t : Tracker) :
  is_transcript_op ev = false ->
  speaking_part s = speaking_part t ->
  speaking_part (handle ev s) = speaking_part (handle ev t).
Proof.
  destruct s as [c1 b1 u1 p1 log lu lb], t as [c2 b2 u2 p2 log' lu' lb'].
  unfold speaking_part. cbn [currentState isBotSpeaking isUserSpeaking
    isBotProcessing]. intros Hev [= -> -> -> ->].
  destruct ev; try discriminate; reflexivity.
Qed.

(** X2. The transcript log and the two pointers after a run are those the
    transcript operations of the run produce on their own, and the phase
    and the three flags are those the speaking events produce on their
    own: neither group of handlers reads or writes what the other group
    owns. *)
Theorem X2_transcripts_and_speaking_independent :
  forall (evs : list Event) (s : Tracker),
    transcript_part (run evs s) =
      transcript_part (run (filter is_transcript_op evs) s)
    /\ speaking_part (run evs s) =
      speaking_part
        (run (filter (fun ev => negb (is_transcript_op ev)) evs) s).
Proof.
  intros evs s. split.
  - assert (H : forall t, transcript_part s = transcript_part t ->
                  transcript_part (run evs s) =
                  transcript_part (run (filter is_transcript_op evs) t)).
    { revert s. induction evs as [|ev later IH]; intros s t Hst.
      - exact Hst.
      - rewrite run_cons. cbn [filter].
        destruct (is_transcript_op ev) eqn:Hev.
        + rewrite run_cons. apply IH. now apply transcript_part_congr.
        + apply IH. now rewrite transcript_part_frame. }
    now apply H.
  - assert (H : forall t, speaking_part s = speaking_part t ->
                  speaking_part (run evs s) =
                  speaking_part
                    (run (filter (fun ev => negb (is_transcript_op ev)) evs)
                       t)).
    { revert s. induction evs as [|ev later IH]; intros s t Hst.
      - exact Hst.
      - rewrite run_cons. cbn [filter].
        destruct (is_transcript_op ev) eqn:Hev; cbn [negb].
        + apply IH. now rewrite speaking_part_frame.
        + rewrite run_cons. apply IH. now apply speaking_part_congr. }
    now apply H.
Qed.

(** The pointers after an out-of-band update. *)
Lemma update_pointer_cases (u : TranscriptUpdate) (s : Tracker) :
  match role u with
  | role_assistant =>
      lastBotTranscript (handleTranscriptUpdate u s) = Some (content u)
      /\ lastUserTranscript (handleTranscriptUpdate u s) =
         lastUserTranscript s
  | role_user =>
      lastUserTranscript (handleTranscriptUpdate u s) = Some (content u)
      /\ lastBotTranscript (handleTranscriptUpdate u s) = lastBotTranscript s
  end.
Proof.
  unfold handleTranscriptUpdate, seq. destruct (role u); split; reflexivity.
Qed.

(** *** Pointers and log *)

Lemma has_entry_app (who : Speaker) (txt : string) (log more : list Transcript) :
  has_entry who txt log -> has_entry who txt (log ++ more).
Proof.
  intros (t & Hin & H). exists t. split; [|exact H].
  apply in_or_app. now left.
Qed.

Lemma has_entry_last (t : Transcript) (log : list Transcript) :
  has_entry (speaker t) (text t) (log ++ [t]).
Proof.
  exists t. split; [|now split]. apply in_or_app. right. now left.
Qed.

Lemma handle_pointers_backed (ev : Event) (s : Tracker) :
  pointers_backed s -> pointers_backed (handle ev s).
Proof.
  intros [Hu Hb].
  destruct (is_transcript_op ev) eqn:Hop.
  2:{ pose proof (transcript_part_frame ev s Hop) as H.
      unfold transcript_part in H. injection H as Hl Hlu Hlb.
      unfold pointers_backed. rewrite Hl, Hlu, Hlb. now split. }
  destruct ev as [ | | | | | | | |now data|now data| |t|u];
    try discriminate; cbn [handle].
  - rewrite (proj1 (transcript_event_cases now data s)).
    destruct (event_text data) as [txt|], (event_final data);
      try (now split).
    split; cbn; intros txt' H.
    + injection H as <-.
      apply (has_entry_last {| text := txt; speaker := user;
                               timestamp := Ms now; final := Some true |}).
    + apply has_entry_app. now apply Hb.
  - rewrite (proj2 (transcript_event_cases now data s)).
    destruct (event_text data) as [txt|]; try (now split).
    split; cbn; intros txt' H.
    + apply has_entry_app. now apply Hu.
    + injection H as <-.
      apply (has_entry_last {| text := txt; speaker := bot;
                               timestamp := Ms now; final := Some true |}).
  - split; cbn; discriminate.
  - unfold addTranscript, seq.
    destruct (speaker t) eqn:Hsp; split; cbn; intros txt' H.
    + injection H as <-. rewrite <- Hsp. apply has_entry_last.
    + apply has_entry_app. now apply Hb.
    + apply has_entry_app. now apply Hu.
    + injection H as <-. rewrite <- Hsp. apply has_entry_last.
  - assert (Hnew : has_entry (speaker_of (role u)) (content u)
                     (transcripts (handleTranscriptUpdate u s))).
    { rewrite transcripts_handleTranscriptUpdate.
      destruct (existsb _ _) eqn:Hdup.
      - apply some_is_duplicate in Hdup as (t & Hin & Ht & Hs & _).
        now exists t.
      - apply (has_entry_last (entry_of u)). }
    assert (Hold : forall who txt, has_entry who txt (transcripts s) ->
                     has_entry who txt
                       (transcripts (handleTranscriptUpdate u s))).
    { intros who txt H. rewrite transcripts_handleTranscriptUpdate.
      destruct (existsb _ _); [exact H | now apply has_entry_app]. }
    pose proof (update_pointer_cases u s) as Hp.
    destruct (role u); destruct Hp as [Hp1 Hp2]; split; intros txt H.
    + rewrite Hp1 in H. injection H as <-. exact Hnew.
    + rewrite Hp2 in H. apply Hold. now apply Hb.
    + rewrite Hp2 in H. apply Hold. now apply Hu.
    + rewrite Hp1 in H. injection H as <-. exact Hnew.
Qed.

(** X3. In every state the tracker reaches from its initial state, a
    last-utterance pointer that is set names an utterance present in the
    log: the log holds an entry of that speaker with exactly that text. *)
Theorem X3_pointers_backed_by_log :
  forall evs : list Event,
    let s := run evs initial in
    (forall txt, lastUserTranscript s = Some txt ->
       exists t, In t (transcripts s) /\ speaker t = user /\ text t = txt)
    /\ (forall txt, lastBotTranscript s = Some txt ->
          exists t, In t (transcripts s) /\ speaker t = bot /\ text t = txt).
Proof.
  intros evs s.
  apply (run_keeps_always pointers_backed handle_pointers_backed evs initial).
  split; discriminate.
Qed.

(** *** Phase and flags *)

Lemma handle_phase_backed (ev : Event) (s : Tracker) :
  phase_backed s -> phase_backed (handle ev s).
Proof.
  intros [Hb Hu].
  destruct (is_transcript_op ev) eqn:Hop.
  - pose proof (speaking_part_frame ev s Hop) as H.
    unfold speaking_part in H. injection H as Hc Hbs Hus _.
    unfold phase_backed. rewrite Hc, Hbs, Hus. now split.
  - destruct ev; try discriminate; split; cbn; auto; discriminate.
Qed.

(** X4. In every state the tracker reaches from its initial state, phase
    BOT_SPEAKING comes with isBotSpeaking = true and phase USER_SPEAKING
    with isUserSpeaking = true. *)
Theorem X4_phase_backed_by_flag :
  forall evs : list Event,
    let s := run evs initial in
    (currentState s = BOT_SPEAKING -> isBotSpeaking s = true)
    /\ (currentState s = USER_SPEAKING -> isUserSpeaking s = true).
Proof.
  intros evs s.
  apply (run_keeps_always phase_backed handle_phase_backed evs initial).
  split; discriminate.
Qed.

(** A cell that every event either overwrites with the table's value or
    leaves alone holds the latest value written. *)
Lemma last_write_wins {A : Type} (cell : Tracker -> A)
    (writes : Event -> option A) :
  (forall ev s, cell (handle ev s) =
                match writes ev with Some v => v | None => cell s end) ->
  forall evs s,
    cell (run evs s) =
    match most_recent_write writes evs with
    | Some v => v
    | None => cell s
    end.
Proof.
  intros Hstep. induction evs as [|ev later IH]; intros s.
  - reflexivity.
  - rewrite run_cons, IH. cbn [most_recent_write].
    destruct (most_recent_write writes later); [reflexivity | apply Hstep].
Qed.

Lemma flags_handle (ev : Event) (s : Tracker) :
  isBotSpeaking (handle ev s) =
    match writes_isBotSpeaking ev with
    | Some v => v
    | None => isBotSpeaking s
    end
  /\ isUserSpeaking (handle ev s) =
    match writes_isUserSpeaking ev with
    | Some v => v
    | None => isUserSpeaking s
    end
  /\ isBotProcessing (handle ev s) =
    match writes_isBotProcessing ev with
    | Some v => v
    | None => isBotProcessing s
    end.
Proof.
  destruct (is_transcript_op ev) eqn:Hop.
  - pose proof (speaking_part_frame ev s Hop) as H.
    unfold speaking_part in H. injection H as _ -> -> ->.
    destruct ev; try discriminate; repeat split.
  - destruct ev; try discriminate; repeat split.
Qed.

(** X5. Each of the three flags is last-writer-wins over its own writers:
    isBotSpeaking is what the latest bot started/stopped event (of either
    channel) wrote, isUserSpeaking what the latest user started/stopped
    event wrote, and isBotProcessing is true after the latest of user
    stopped and LLM started, false after LLM stopped; a flag no event of
    the run writes keeps its value. *)
Theorem X5_flags_last_write_wins :
  forall (evs : list Event) (s : Tracker),
    isBotSpeaking (run evs s) =
      match most_recent_write writes_isBotSpeaking evs with
      | Some v => v
      | None => isBotSpeaking s
      end
    /\ isUserSpeaking (run evs s) =
      match most_recent_write writes_isUserSpeaking evs with
      | Some v => v
      | None => isUserSpeaking s
      end
    /\ isBotProcessing (run evs s) =
      match most_recent_write writes_isBotProcessing evs with
      | Some v => v
      | None => isBotProcessing s
      end.
Proof.
  intros evs s. repeat split; apply last_write_wins; intros ev s';
    apply flags_handle.
Qed.

(** *** The dedup test *)

Lemma ForallOrdPairs_snoc {A : Type} (R : A -> A -> Prop) (l : list A) (x : A) :
  ForallOrdPairs R l -> Forall (fun a => R a x) l ->
  ForallOrdPairs R (l ++ [x]).
Proof.
  induction 1 as [|a l Ha Hl IH]; intros Hx; cbn.
  - constructor; constructor.
  - inversion Hx as [|? ? Hax Hlx]; subst. constructor.
    + apply Forall_app. split; [exact Ha | now constructor].
    + now apply IH.
Qed.

Lemma not_some_is_apart (u : TranscriptUpdate) (log : list Transcript) :
  existsb (same_transcript u) log = false ->
  Forall (fun t => close_entries t (entry_of u) = false) log.
Proof.
  intros H. apply Forall_forall. intros t Hin.
  destruct (close_entries t (entry_of u)) eqn:Hc; [|reflexivity].
  rewrite <- H. symmetry. apply existsb_exists. exists t. now split.
Qed.

Lemma handle_pairwise_apart (ev : Event) (s : Tracker) :
  is_deduplicated ev = true ->
  pairwise_apart (transcripts s) ->
  pairwise_apart (transcripts (handle ev s)).
Proof.
  intros Hev Hs.
  destruct ev as [ | | | | | | | |now data|now data| |t|u];
    try discriminate; try exact Hs.
  - constructor.
  - cbn [handle]. rewrite transcripts_handleTranscriptUpdate.
    destruct (existsb _ _) eqn:Hdup; [exact Hs|].
    apply ForallOrdPairs_snoc; [exact Hs | now apply not_some_is_apart].
Qed.

(** X6. A log that is fed through the out-of-band channel only
    (handleTranscriptUpdate, with speaking events and clearTranscripts()
    in between, but no addTranscript and no transcript event) never holds
    two entries with the same text, the same speaker and time stamps
    less than 1000ms apart. *)
Theorem X6_dedup_keeps_entries_apart :
  forall (evs : list Event) (s : Tracker),
    forallb is_deduplicated evs = true ->
    pairwise_apart (transcripts s) ->
    pairwise_apart (transcripts (run evs s)).
Proof.
  intros evs s Hall Hs.
  now apply (run_keeps is_deduplicated
               (fun s => pairwise_apart (transcripts s))
               handle_pairwise_apart).
Qed.

Lemma X6_dedup_keeps_entries_apart_witness :
  let say (txt : string) (t : Z) :=
    ServerTranscriptUpdate {| role := role_user; content := txt;
                              update_time := Ms t |} in
  let evs := [say "hello" 0; say "hello" 400; UserStartedSpeaking;
              say "hello" 1200] in
  forallb is_deduplicated evs = true
  /\ pairwise_apart (transcripts initial)
  /\ pairwise_apart (transcripts (run evs initial)).
Proof.
  cbv zeta.
  assert (H0 : pairwise_apart (transcripts initial)) by constructor.
  split; [reflexivity|]. split; [exact H0|].
  apply X6_dedup_keeps_entries_apart; [reflexivity | exact H0].
Defined.

Lemma update_is_own_duplicate (u : TranscriptUpdate) (T : Z) (s : Tracker) :
  update_time u = Ms T ->
  existsb (same_transcript u) (transcripts (handleTranscriptUpdate u s)) = true.
Proof.
  intros HT. rewrite transcripts_handleTranscriptUpdate.
  destruct (existsb (same_transcript u) (transcripts s)) eqn:Hdup;
    [exact Hdup|].
  rewrite existsb_app. cbn [existsb]. rewrite Hdup, orb_false_r. cbn [orb].
  apply same_transcript_spec. cbn [entry_of text speaker timestamp].
  repeat split. exists T, T. rewrite HT. repeat split.
  rewrite Z.sub_diag. reflexivity.
Qed.

(** X7. Ingesting an out-of-band update whose time stamp is a date is
    idempotent on the whole state, whatever the state: a second delivery of
    the same update right after the first changes nothing. *)
Theorem X7_update_idempotent :
  forall (u : TranscriptUpdate) (T : Z) (s : Tracker),
    update_time u = Ms T ->
    handleTranscriptUpdate u (handleTranscriptUpdate u s) =
    handleTranscriptUpdate u s.
Proof.
  intros u T s HT.
  pose proof (update_is_own_duplicate u T s HT) as Hdup.
  pose proof (update_pointer_cases u s) as Hp.
  revert Hdup Hp.
  generalize (handleTranscriptUpdate u s). intros [c b us p log lu lb].
  cbn [transcripts lastUserTranscript lastBotTranscript].
  unfold handleTranscriptUpdate, seq.
  destruct (role u); intros Hdup [Hp _];
    unfold setTranscripts, setLastUserTranscript, setLastBotTranscript;
    cbn [currentState isBotSpeaking isUserSpeaking isBotProcessing
         transcripts lastUserTranscript lastBotTranscript];
    rewrite Hdup, Hp; reflexivity.
Qed.

Lemma X7_update_idempotent_witness :
  let u := {| role := role_assistant; content := "hi";
              update_time := Ms 7 |} in
  update_time u = Ms 7
  /\ handleTranscriptUpdate u (handleTranscriptUpdate u initial) =
     handleTranscriptUpdate u initial.
Proof.
  cbv zeta. split; [reflexivity|].
  exact (X7_update_idempotent
           {| role := role_assistant; content := "hi"; update_time := Ms 7 |}
           7 initial eq_refl).
Defined.

(** X8. An out-of-band update whose timestamp string is not a date (the
    time is NaN) is never recognised as a duplicate: delivered twice in a
    row it is appended twice, on any log. *)
Theorem X8_invalid_date_defeats_dedup :
  forall (r : Role) (txt : string) (s : Tracker),
    let u := {| role := r; content := txt; update_time := NaN |} in
    transcripts (handleTranscriptUpdate u (handleTranscriptUpdate u s)) =
    transcripts s ++ [entry_of u; entry_of u].
Proof.
  intros r txt s u. subst u.
  rewrite !dedup_invalid_date, <- app_assoc. reflexivity.
Qed.

(** *** Entries of the primary path *)

Lemma event_text_not_empty (data : option TranscriptData) (txt : string) :
  event_text data = Some txt -> txt <> "".
Proof.
  destruct data as [[[[|c rest]|] f]|]; cbn; try discriminate.
  intros [= <-]. discriminate.
Qed.

Lemma handle_committed_entries (ev : Event) (s : Tracker) :
  is_primary ev = true ->
  Forall committed_entry (transcripts s) ->
  Forall committed_entry (transcripts (handle ev s)).
Proof.
  intros Hev Hs.
  assert (Hadd : forall who txt now,
            txt <> "" ->
            Forall committed_entry (transcripts (commit who txt now s))).
  { intros who txt now Htxt. cbn. apply Forall_app. split; [exact Hs|].
    constructor; [|constructor]. repeat split; cbn; eauto. }
  destruct ev as [ | | | | | | | |now data|now data| |t|u];
    try discriminate; try exact Hs; cbn [handle].
  - rewrite (proj1 (transcript_event_cases now data s)).
    destruct (event_text data) as [txt|] eqn:Htxt; [|exact Hs].
    destruct (event_final data); [|exact Hs].
    apply Hadd. now apply (event_text_not_empty data).
  - rewrite (proj2 (transcript_event_cases now data s)).
    destruct (event_text data) as [txt|] eqn:Htxt; [|exact Hs].
    apply Hadd. now apply (event_text_not_empty data).
  - constructor.
Qed.

(** X9. Every entry the two transcript events put into the log has a text
    that is not empty, a numeric time stamp and final = true: a log that
    addTranscript and the out-of-band channel never wrote to holds such
    entries only. *)
Theorem X9_primary_entries_committed :
  forall evs : list Event,
    forallb is_primary evs = true ->
    forall t : Transcript,
      In t (transcripts (run evs initial)) ->
      text t <> "" /\ final t = Some true
      /\ exists ms : Z, timestamp t = Ms ms.
Proof.
  intros evs Hall.
  apply Forall_forall.
  apply (run_keeps is_primary
           (fun s => Forall committed_entry (transcripts s))
           handle_committed_entries evs initial Hall).
  constructor.
Qed.

Lemma X9_primary_entries_committed_witness :
  let evs := [UserTranscript 5 (Some {| data_text := Some "yes";
                                        data_final := Some true |});
              UserTranscript 6 (Some {| data_text := Some "no";
                                        data_final := Some false |})] in
  let t := {| text := "yes"; speaker := user; timestamp := Ms 5;
              final := Some true |} in
  forallb is_primary evs = true
  /\ In t (transcripts (run evs initial))
  /\ text t <> "".
Proof.
  cbv zeta. split; [reflexivity|].
  assert (Hin : In {| text := "yes"; speaker := user; timestamp := Ms 5;
                      final := Some true |}
                  (transcripts
                     (run [UserTranscript 5
                             (Some {| data_text := Some "yes";
                                      data_final := Some true |});
                           UserTranscript 6
                             (Some {| data_text := Some "no";
                                      data_final := Some false |})]
                        initial)))
    by (left; reflexivity).
  split; [exact Hin|].
  refine (proj1 (X9_primary_entries_committed _ _ _ Hin)). reflexivity.
Defined.

End TrackerInvariants.

(** * Invariants of the connection manager *)

Module ManagerInvariants.

Import Connection ConnectionFacts.
Local Open Scope string_scope.
Local Open Scope Q_scope.

Section Manager.

Variable options : ConnectionManagerOptions.

Lemma state_after_keeps (I : ConnectionState -> Prop) :
  (forall s ev, I s -> I (fst (step options s ev))) ->
  forall evs s, I s -> I (state_after options evs s).
Proof.
  intros Hstep. induction evs as [|ev later IH]; intros s Hs.
  - exact Hs.
  - rewrite state_after_cons. apply IH. now apply Hstep.
Qed.

(** Only a disconnect event starts a timer. *)
Lemma timer_needs_disconnect (s : ConnectionState) (ev : Event) (d : Q) :
  snd (step options s ev) = Some d -> exists random, ev = Disconnected random.
Proof. destruct ev; try discriminate. eauto. Qed.

(** The delays of a run, from what holds for each one when it is
    scheduled; [ok] is what is known of the random draws. *)
Lemma run_timers_when (ok : Q -> Prop) (I : ConnectionState -> Prop)
    (P : Q -> Prop) :
  (forall s ev, I s -> I (fst (step options s ev))) ->
  (forall s random d,
     I s -> ok random ->
     snd (step options s (Disconnected random)) = Some d -> P d) ->
  forall evs s,
    I s ->
    Forall (fun ev => match ev with
                      | Disconnected random => ok random
                      | _ => True
                      end) evs ->
    Forall P (snd (run options evs s)).
Proof.
  intros Hinv Hd. induction evs as [|ev later IH]; intros s Hs Hok.
  - constructor.
  - inversion Hok as [|? ? Hev Hlater]; subst.
    rewrite run_step. cbn [snd]. apply Forall_app. split.
    + destruct (snd (step options s ev)) as [d|] eqn:Hsch; [|constructor].
      destruct (timer_needs_disconnect s ev d Hsch) as [random ->].
      constructor; [|constructor]. now apply (Hd s random).
    + apply IH; [now apply Hinv | exact Hlater].
Qed.

Lemma run_timers (I : ConnectionState -> Prop) (P : Q -> Prop) :
  (forall s ev, I s -> I (fst (step options s ev))) ->
  (forall s random d,
     I s -> unit_interval random ->
     snd (step options s (Disconnected random)) = Some d -> P d) ->
  forall evs s,
    I s -> draws_in_unit evs -> Forall P (snd (run options evs s)).
Proof. apply (run_timers_when unit_interval). Qed.

(** What one event does to the counter. *)
Lemma counter_step (s : ConnectionState) (ev : Event) :
  (resets_counter ev = true
   /\ snd (step options s ev) = None
   /\ reconnectAttempts (fst (step options s ev)) = 0%nat)
  \/ (snd (step options s ev) = None
      /\ reconnectAttempts (fst (step options s ev)) = reconnectAttempts s)
  \/ (exists d, snd (step options s ev) = Some d
      /\ resets_counter ev = false
      /\ number (reconnectAttempts s) < maxReconnectAttempts options
      /\ reconnectAttempts (fst (step options s ev)) =
         S (reconnectAttempts s)).
Proof.
  destruct ev as [ts|random|m|m| | |m| | |];
    try (right; left; split; reflexivity).
  - cbn [step fst snd]. unfold onTransportState.
    destruct (truthy (Some ts)); [|right; left; now split].
    destruct (connected_or_ready ts) eqn:Hts.
    + left. cbn. now rewrite Hts.
    + right. left. now split.
  - destruct (snd (step options s (Disconnected random))) as [d|] eqn:Hsch.
    + right. right. exists d.
      apply disconnect_scheduled in Hsch as (_ & Hlt & _ & ->).
      now repeat split.
    + right. left. split; [reflexivity|].
      revert Hsch. cbn [step]. unfold handleDisconnect.
      destruct (_ && _); [discriminate|].
      now destruct (Qge_bool _ _).
  - left. now repeat split.
Qed.

Lemma number_lt_inv (a b : nat) : number a < number b -> (a < b)%nat.
Proof. unfold number. rewrite <- Zlt_Qlt. lia. Qed.

(** The listener without a timer leaves the counter alone. *)
Lemma listener_idle (connectionState prev : ConnectionState) (random : Q) :
  snd (handleDisconnect options connectionState random prev) = None ->
  reconnectAttempts (fst (handleDisconnect options connectionState random prev))
  = reconnectAttempts prev.
Proof.
  unfold handleDisconnect. destruct (_ && _); [discriminate|].
  now destruct (Qge_bool _ _).
Qed.

Lemma deliver_quiet (m : nat) (c : Component) (d : Delivery) :
  maxReconnectAttempts options == number m ->
  quiet [d] = true ->
  near_captured m c ->
  near_captured m (fst (deliver options c d))
  /\ (reconnectAttempts (current c)
      <= reconnectAttempts (current (fst (deliver options c d))))%nat
  /\ (reconnectAttempts (current (fst (deliver options c d)))
      <= reconnectAttempts (current c)
         + List.length (timers (snd (deliver options c d))))%nat.
Proof.
  intros Hmax Hq (K1 & K2 & K3). unfold near_captured.
  cbn [quiet forallb] in Hq. rewrite andb_true_r in Hq.
  destruct d as [|ev]; [cbn; lia|].
  apply negb_true_iff in Hq.
  destruct ev as [ts|random|m'|m'| | |m'| | |];
    try (cbn; lia); try discriminate Hq.
  - cbn [deliver]. destruct (String.eqb ts (reported c)); [cbn; lia|].
    cbn [fst snd current captured timers List.length].
    assert (E : reconnectAttempts (onTransportState ts (current c)) =
                reconnectAttempts (current c)).
    { unfold onTransportState. cbn [resets_counter enters_connected] in Hq.
      destruct (truthy (Some ts)); [|reflexivity]. now rewrite Hq. }
    rewrite E. lia.
  - rewrite deliver_disconnect. cbn [fst snd current captured].
    destruct (snd (handleDisconnect options (captured c) random (current c)))
      as [d|] eqn:Hsch.
    + apply listener_scheduled in Hsch as (_ & Hlt & _ & ->).
      rewrite Hmax in Hlt. apply number_lt_inv in Hlt.
      cbn [reconnectAttempts timers List.length]. lia.
    + rewrite (listener_idle _ _ _ Hsch). cbn [timers List.length]. lia.
Qed.

Lemma play_quiet (m : nat) (ds : list Delivery) :
  maxReconnectAttempts options == number m ->
  forall c : Component,
    quiet ds = true ->
    near_captured m c ->
    let r := play options ds c in
    (reconnectAttempts (current c)
     <= reconnectAttempts (current (fst r)))%nat
    /\ (reconnectAttempts (current (fst r)) <= m)%nat
    /\ (reconnectAttempts (current (fst r))
        <= reconnectAttempts (current c) + List.length (snd r))%nat.
Proof.
  intros Hmax. induction ds as [|d later IH]; intros c Hq K r; subst r.
  - cbn. destruct K as (_ & _ & K3). lia.
  - cbn [quiet forallb] in Hq. apply andb_true_iff in Hq as [Hd Hq].
    fold (quiet later) in Hq. rewrite play_cons. cbn [fst snd].
    destruct (deliver_quiet m c d Hmax) as (K' & M1 & M2); trivial.
    { cbn [quiet forallb]. now rewrite Hd. }
    destruct (IH (fst (deliver options c d)) Hq K') as (I1 & I2 & I3).
    rewrite length_app. lia.
Qed.

(** An event that is no reset, delivered to a component that has
    re-rendered: either no timer and the same count, or a timer and one
    more. *)
Lemma deliver_rendered (c : Component) (ev : Event) :
  rendered c ->
  resets_counter ev = false ->
  (snd (deliver options c (Deliver ev)) = None
   /\ reconnectAttempts (current (fst (deliver options c (Deliver ev))))
      = reconnectAttempts (current c))
  \/ (exists d, snd (deliver options c (Deliver ev)) = Some d
      /\ number (reconnectAttempts (current c)) < maxReconnectAttempts options
      /\ reconnectAttempts (current (fst (deliver options c (Deliver ev))))
         = S (reconnectAttempts (current c))).
Proof.
  intros Hren Hev.
  assert (Hstep : snd (deliver options c (Deliver ev)) = None
                  /\ current (fst (deliver options c (Deliver ev))) = current c
                  \/ deliver options c (Deliver ev) =
                     ({| current := fst (step options (current c) ev);
                         captured := captured c;
                         reported := match ev with
                                     | TransportStateChanged ts => ts
                                     | _ => reported c
                                     end |},
                      snd (step options (current c) ev))).
  { destruct ev as [ts|random|m|m| | |m| | |]; try (right; reflexivity).
    - cbn [deliver]. destruct (String.eqb ts (reported c));
        [left; now split | right; reflexivity].
    - right. rewrite deliver_disconnect. unfold rendered in Hren.
      now rewrite Hren. }
  destruct Hstep as [[-> ->] | ->]; [now left|].
  cbn [fst snd current].
  destruct (counter_step (current c) ev)
    as [(Hr & _) | [(Hs & Hn) | (d & Hs & _ & Hlt & Hn)]].
  - congruence.
  - now left.
  - right. now exists d.
Qed.

Lemma play_with_renders (m : nat) (evs : list Event) :
  maxReconnectAttempts options == number m ->
  forall c : Component,
    no_reset evs = true ->
    rendered c ->
    (reconnectAttempts (current c) <= m)%nat ->
    let r := play options (with_renders evs) c in
    reconnectAttempts (current (fst r)) =
      (reconnectAttempts (current c) + List.length (snd r))%nat
    /\ (reconnectAttempts (current (fst r)) <= m)%nat.
Proof.
  intros Hmax. induction evs as [|ev later IH]; intros c Hno Hren Hle r;
    subst r.
  - cbn. lia.
  - cbn [no_reset forallb] in Hno. apply andb_true_iff in Hno as [Hev Hno].
    fold (no_reset later) in Hno. apply negb_true_iff in Hev.
    cbn [with_renders flat_map app]. fold (with_renders later).
    rewrite play_cons.
    set (c1 := fst (deliver options c (Deliver ev))).
    rewrite play_cons, deliver_render. cbn [fst snd timers app].
    set (c2 := {| current := current c1; captured := current c1;
                  reported := reported c1 |}).
    assert (Hren2 : rendered c2) by reflexivity.
    destruct (deliver_rendered c ev Hren Hev)
      as [(Hs & Hn) | (d & Hs & Hlt & Hn)]; fold c1 in Hn; rewrite Hs.
    + destruct (IH c2 Hno Hren2) as [I1 I2];
        [cbn [c2 current]; lia|].
      cbn [c2 current] in I1. cbn [timers app]. split; [lia | exact I2].
    + rewrite Hmax in Hlt. apply number_lt_inv in Hlt.
      destruct (IH c2 Hno Hren2) as [I1 I2];
        [cbn [c2 current]; lia|].
      cbn [c2 current] in I1. cbn [timers app List.length].
      split; [lia | exact I2].
Qed.

(** X10. Over any delivery of events and re-renders without a reset of
    the counter, reconnectAttempts never goes down, never passes
    maxReconnectAttempts (a whole number m the counter starts below or at)
    and rises by at most the number of timers started.  When the component
    re-renders after every event, it rises by exactly the number of timers
    started, so that at most maxReconnectAttempts timers are started
    between two resets. *)
Theorem X10_timers_within_budget :
  forall m : nat,
    maxReconnectAttempts options == number m ->
    (forall (ds : list Delivery) (c : Component),
       quiet ds = true ->
       rendered c ->
       (reconnectAttempts (current c) <= m)%nat ->
       let r := play options ds c in
       (reconnectAttempts (current c)
        <= reconnectAttempts (current (fst r)))%nat
       /\ (reconnectAttempts (current (fst r)) <= m)%nat
       /\ (reconnectAttempts (current (fst r))
           <= reconnectAttempts (current c) + List.length (snd r))%nat)
    /\ (forall (evs : list Event) (c : Component),
          no_reset evs = true ->
          rendered c ->
          (reconnectAttempts (current c) <= m)%nat ->
          let r := play options (with_renders evs) c in
          reconnectAttempts (current (fst r)) =
            (reconnectAttempts (current c) + List.length (snd r))%nat
          /\ (List.length (snd r) <= m)%nat).
Proof.
  intros m Hmax. split.
  - intros ds c Hq Hren Hle. apply (play_quiet m ds Hmax c Hq).
    unfold near_captured. rewrite Hren. lia.
  - intros evs c Hno Hren Hle r.
    destruct (play_with_renders m evs Hmax c Hno Hren Hle) as [H1 H2].
    fold r in H1, H2. split; [exact H1 | lia].
Qed.

End Manager.

Lemma X10_timers_within_budget_witness :
  let evs := [Disconnected (1 # 2); ConnectCalled; Disconnected (1 # 4)] in
  let r := play no_options (with_renders evs) connected_component in
  maxReconnectAttempts no_options == number 5
  /\ no_reset evs = true
  /\ rendered connected_component
  /\ (reconnectAttempts (current connected_component) <= 5)%nat
  /\ reconnectAttempts (current (fst r)) =
     (reconnectAttempts (current connected_component)
      + List.length (snd r))%nat
  /\ (List.length (snd r) <= 5)%nat.
Proof.
  cbv zeta.
  assert (H1 : maxReconnectAttempts no_options == number 5) by reflexivity.
  assert (H2 : (reconnectAttempts (current connected_component) <= 5)%nat)
    by (cbn; lia).
  split; [exact H1|]. split; [reflexivity|]. split; [reflexivity|].
  split; [exact H2|].
  exact (proj2 (X10_timers_within_budget no_options 5 H1)
           [Disconnected (1 # 2); ConnectCalled; Disconnected (1 # 4)]
           connected_component eq_refl eq_refl H2).
Defined.

(** *** The delays *)

Lemma scheduled_delay_nonneg (options : ConnectionManagerOptions)
    (attempts : nat) (random : Q) :
  0 <= reconnectDelay options ->
  0 <= reconnectBackoffMultiplier options ->
  0 <= maxReconnectDelay options ->
  unit_interval random ->
  0 <= calculateReconnectDelay options attempts random.
Proof.
  intros Hd Hm Hmax [H0 H1]. unfold calculateReconnectDelay.
  apply Q.min_glb; [|exact Hmax].
  apply Qmult_le_0_compat; [|lra].
  apply Qmult_le_0_compat; [exact Hd|].
  now apply Qpower_0_le.
Qed.

(** X11. No reconnection timer is ever started with a delay above
    maxReconnectDelay, whatever the options, the events and the random
    draws; and when reconnectDelay, reconnectBackoffMultiplier and
    maxReconnectDelay are not negative, no delay is negative. *)
Theorem X11_delays_bounded :
  forall (options : ConnectionManagerOptions) (evs : list Event)
         (s : ConnectionState),
    Forall (fun d => d <= maxReconnectDelay options)
      (snd (run options evs s))
    /\ (0 <= reconnectDelay options ->
        0 <= reconnectBackoffMultiplier options ->
        0 <= maxReconnectDelay options ->
        draws_in_unit evs ->
        Forall (fun d => 0 <= d) (snd (run options evs s))).
Proof.
  intros options evs s. split.
  - apply (run_timers_when options (fun _ => True) (fun _ => True)); trivial.
    + intros s' random d _ _ Hsch.
      apply disconnect_scheduled in Hsch as (_ & _ & -> & _).
      apply Q.le_min_r.
    + apply Forall_forall. now intros [ ].
  - intros Hd Hm Hmax Hunit.
    apply (run_timers options (fun _ => True)); trivial.
    intros s' random d _ Hr Hsch.
    apply disconnect_scheduled in Hsch as (_ & _ & -> & _).
    now apply scheduled_delay_nonneg.
Qed.

(** Without options the counter never passes 5. *)
Lemma default_counter_bound (s : ConnectionState) (ev : Event) :
  (reconnectAttempts s <= 5)%nat ->
  (reconnectAttempts (fst (step no_options s ev)) <= 5)%nat.
Proof.
  intros H.
  destruct (counter_step no_options s ev)
    as [(_ & _ & ->) | [(_ & ->) | (d & _ & _ & Hlt & ->)]].
  - lia.
  - exact H.
  - apply (number_lt_inv _ 5) in Hlt. lia.
Qed.

(** X13. Without options the cap of 30000ms never acts: whatever the
    events since the hook was mounted and whatever the random draws, every
    timer is started with a delay of at most 9112.5ms (attempt 5 with the
    largest jitter). *)
Theorem X13_default_delays_below_cap :
  forall (transportState0 : string) (evs : list Event),
    draws_in_unit evs ->
    Forall (fun d => d <= 9112.5 /\ d < maxReconnectDelay no_options)
      (snd (run no_options evs (initial transportState0))).
Proof.
  intros ts0 evs Hunit.
  apply (run_timers no_options
           (fun s => (reconnectAttempts s <= 5)%nat)); trivial.
  - apply default_counter_bound.
  - intros s random d _ [H0 H1] Hsch.
    apply disconnect_scheduled in Hsch as (_ & Hlt & -> & _).
    apply (number_lt_inv _ 5) in Hlt.
    assert (H : calculateReconnectDelay no_options
                  (S (reconnectAttempts s)) random <= 9112.5).
    { rewrite default_delay.
      eapply Qle_trans; [apply Q.le_min_l|].
      destruct (reconnectAttempts s) as [|[|[|[|[|k]]]]]; [| | | | |lia].
      - change (1.5 ^ Z.of_nat 1) with 1.5. lra.
      - change (1.5 ^ Z.of_nat 2) with 2.25. lra.
      - change (1.5 ^ Z.of_nat 3) with 3.375. lra.
      - change (1.5 ^ Z.of_nat 4) with 5.0625. lra.
      - change (1.5 ^ Z.of_nat 5) with 7.59375. lra. }
    split; [exact H|].
    eapply Qle_lt_trans; [exact H | reflexivity].
  - cbn. lia.
Qed.

Lemma X13_default_delays_below_cap_witness :
  let evs := [TransportStateChanged "ready"; Disconnected (99 # 100)] in
  draws_in_unit evs
  /\ Forall (fun d => d <= 9112.5 /\ d < maxReconnectDelay no_options)
       (snd (run no_options evs (initial ""))).
Proof.
  cbv zeta.
  assert (H : draws_in_unit
                [TransportStateChanged "ready"; Disconnected (99 # 100)]).
  { repeat constructor; discriminate. }
  split; [exact H|].
  exact (X13_default_delays_below_cap ""
           [TransportStateChanged "ready"; Disconnected (99 # 100)] H).
Defined.

(** *** The recorded error *)

Lemma or_else_not_empty (message : option string) (default : string) :
  default <> "" -> or_else message default <> "".
Proof.
  intros Hd. unfold or_else.
  destruct message as [[|c rest]|]; cbn; trivial. discriminate.
Qed.

Lemma step_error_not_empty (options : ConnectionManagerOptions)
    (s : ConnectionState) (ev : Event) :
  lastError s <> Some "" ->
  lastError (fst (step options s ev)) <> Some "".
Proof.
  intros Hs.
  destruct ev as [ts|random|m|m| | |m| | |]; cbn [step fst]; trivial;
    try (cbn; discriminate).
  - unfold onTransportState. destruct (truthy (Some ts)); [|exact Hs].
    now destruct (connected_or_ready ts).
  - unfold handleDisconnect. destruct (_ && _); [exact Hs|].
    destruct (Qge_bool _ _); [cbn; discriminate | exact Hs].
  - cbn. intros [= H]. now apply (or_else_not_empty m "Unknown error").
  - cbn. intros [= H]. now apply (or_else_not_empty m "Connection failed").
Qed.

Lemma or_else_message_or (message : option string) (fallback : string) :
  or_else message fallback = message_or message fallback.
Proof. now destruct message as [[|c rest]|]. Qed.

(** X14. An error is always recorded under a text that is not empty.  An
    error event records its message, and "Unknown error" when the message
    is missing or empty; a rejected connect() records the message, and
    "Connection failed" when it is missing or empty; a failed reconnection
    records "Reconnection failed: " followed by the message or "Unknown
    error".  Hence, in every state the manager reaches after its mount,
    lastError is either null or a string that is not empty, and a
    truthiness test of lastError never misses an error. *)
Theorem X14_errors_recorded_never_empty :
  forall options : ConnectionManagerOptions,
    (forall (s : ConnectionState) (message : option string),
       lastError (fst (step options s (Error message))) =
         Some (message_or message "Unknown error")
       /\ lastError (fst (step options s (ConnectRejected message))) =
         Some (message_or message "Connection failed")
       /\ lastError (fst (step options s (ReconnectRejected message))) =
         Some ("Reconnection failed: " ++ message_or message "Unknown error"))
    /\ (forall (message : option string) (fallback : string),
          fallback <> "" -> message_or message fallback <> "")
    /\ (forall (transportState0 : string) (evs : list Event),
          lastError (state_after options evs (initial transportState0))
          <> Some "")
    /\ (forall (transportState0 : string) (ds : list Delivery),
          lastError (current (fst (play options ds (mount transportState0))))
          <> Some "").
Proof.
  intros options. split; [|split; [|split]].
  - intros s message. cbn [step fst]. unfold handleError, reconnectFailed.
    cbn. now rewrite !or_else_message_or.
  - intros message fallback Hf. rewrite <- or_else_message_or.
    now apply or_else_not_empty.
  - intros ts0 evs.
    apply (state_after_keeps options (fun s => lastError s <> Some "")).
    + intros s ev. apply step_error_not_empty.
    + discriminate.
  - intros ts0 ds.
    assert (H : forall c, lastError (current c) <> Some "" ->
                  lastError (current (fst (play options ds c))) <> Some "").
    { induction ds as [|d later IH]; intros c Hc; [exact Hc|].
      rewrite play_cons. cbn [fst]. apply IH.
      destruct d as [|ev]; [exact Hc|].
      destruct ev as [ts|random|m|m| | |m| | |];
        try (cbn [deliver fst current];
             now apply (step_error_not_empty options)).
      - cbn [deliver]. destruct (String.eqb ts (reported c)); [exact Hc|].
        cbn [fst current].
        now apply (step_error_not_empty options _ (TransportStateChanged ts)).
      - rewrite deliver_disconnect. cbn [fst current].
        unfold handleDisconnect. destruct (_ && _); [exact Hc|].
        destruct (Qge_bool _ _); [cbn; discriminate | exact Hc]. }
    apply H. cbn [mount current].
    now apply (step_error_not_empty options _ (TransportStateChanged ts0)).
Qed.

(** *** Disconnect events the manager ignores *)



(** *** The recorded transport state *)

Lemma transportState_step (options : ConnectionManagerOptions)
    (s : ConnectionState) (ev : Event) :
  transportState (fst (step options s ev)) =
  match ev with
  | TransportStateChanged ts =>
      match truthy (Some ts) with
      | Some ts' => ts'
      | None => transportState s
      end
  | _ => transportState s
  end.
Proof.
  destruct ev as [ts|random|m|m| | |m| | |]; try reflexivity.
  - cbn [step fst]. unfold onTransportState.
    destruct ts as [|c rest]; [reflexivity|]. cbn [truthy].
    now destruct (connected_or_ready _).
  - cbn [step]. unfold handleDisconnect. destruct (_ && _); [reflexivity|].
    now destruct (Qge_bool _ _).
Qed.

(** X16. The transportState field is last-writer-wins over the states the
    transport reported: after any run it is the latest reported state that
    is not empty, and the state before the run when there is none; connect(),
    disconnect(), errors and disconnect events never write it. *)
Theorem X16_transportState_mirrors_transport :
  forall (options : ConnectionManagerOptions) (evs : list Event)
         (s : ConnectionState),
    transportState (state_after options evs s) =
    match most_recent_transport evs with
    | Some ts => ts
    | None => transportState s
    end.
Proof.
  intros options. induction evs as [|ev later IH]; intros s.
  - reflexivity.
  - rewrite state_after_cons, IH. cbn [most_recent_transport].
    destruct (most_recent_transport later); [reflexivity|].
    rewrite transportState_step.
    destruct ev as [ts| | | | | | | | |]; try reflexivity.
Qed.

(** X17. In every state the manager reaches after its mount, isConnected
    is true only when the recorded transport state is "connected" or
    "ready". *)
Theorem X17_connected_only_on_connected_transport :
  forall (options : ConnectionManagerOptions) (transportState0 : string)
         (evs : list Event),
    let s := state_after options evs (initial transportState0) in
    isConnected s = true ->
    transportState s = "connected" \/ transportState s = "ready".
Proof.
  intros options ts0 evs s Hc.
  assert (Hinit : coherent (initial ts0)) by (split; discriminate).
  destruct (run_coherent options evs _ Hinit) as [H _].
  specialize (H Hc). fold s in H. unfold connected_or_ready in H.
  apply orb_true_iff in H as [H|H]; apply String.eqb_eq in H; auto.
Qed.

Lemma X17_connected_only_on_connected_transport_witness :
  let s := state_after no_options [TransportStateChanged "ready"; ConnectCalled]
             (initial "") in
  isConnected s = true
  /\ (transportState s = "connected" \/ transportState s = "ready").
Proof.
  cbv zeta. split; [reflexivity|].
  exact (X17_connected_only_on_connected_transport no_options ""
           [TransportStateChanged "ready"; ConnectCalled] eq_refl).
Defined.

(** *** Starting over *)

(** X23. Every change of the reported transport state into connected or
    ready starts the backoff over: whatever the component was like before
    (also with the budget used up), once it has re-rendered after the
    report and if maxReconnectAttempts is positive, the next disconnect
    event starts a timer with the delay of attempt 1, sets the counter to
    1 and raises the reconnecting flag. *)
Theorem X23_backoff_starts_over :
  forall (options : ConnectionManagerOptions) (c : Component)
         (ts : string) (random : Q),
    ts = "connected" \/ ts = "ready" ->
    ts <> reported c ->
    0 < maxReconnectAttempts options ->
    let r := play options
               [Deliver (TransportStateChanged ts); Render;
                Deliver (Disconnected random)] c in
    snd r = [calculateReconnectDelay options 1 random]
    /\ reconnectAttempts (current (fst r)) = 1%nat
    /\ isReconnecting (current (fst r)) = true.
Proof.
  intros options c ts random Hts Hnew Hmax r. subst r.
  apply String.eqb_neq in Hnew.
  rewrite play_cons. cbn [deliver]. rewrite Hnew. cbn [fst snd timers app].
  rewrite play_cons, deliver_render. cbn [fst snd timers app current].
  rewrite play_cons, deliver_disconnect. cbn [fst snd current captured play].
  assert (H1 : isConnected (onTransportState ts (current c)) = true
               /\ reconnectAttempts (onTransportState ts (current c)) = 0%nat).
  { destruct Hts as [-> | ->]; split; reflexivity. }
  destruct H1 as [Hc Hn].
  rewrite (listener_schedules options _ _ random Hc) by now rewrite Hn.
  cbn [fst snd timers app current reconnectAttempts isReconnecting].
  now rewrite Hn.
Qed.

Lemma X23_backoff_starts_over_witness :
  let exhausted :=
    fst (play no_options
           (with_renders
              (disconnects [1 # 2; 1 # 2; 1 # 2; 1 # 2; 1 # 2; 1 # 2]))
           connected_component) in
  let r := play no_options
             [Deliver (TransportStateChanged "ready"); Render;
              Deliver (Disconnected (1 # 3))] exhausted in
  ("ready" = "connected" \/ "ready" = "ready")
  /\ "ready" <> reported exhausted
  /\ 0 < maxReconnectAttempts no_options
  /\ reconnectAttempts (current exhausted) = 5%nat
  /\ reconnectAttempts (current (fst r)) = 1%nat.
Proof.
  cbv zeta.
  assert (H1 : "ready" = "connected" \/ "ready" = "ready") by now right.
  assert (H2 : "ready" <>
               reported
                 (fst (play no_options
                         (with_renders
                            (disconnects
                               [1 # 2; 1 # 2; 1 # 2; 1 # 2; 1 # 2; 1 # 2]))
                         connected_component))) by discriminate.
  assert (H3 : 0 < maxReconnectAttempts no_options) by reflexivity.
  split; [exact H1|]. split; [exact H2|]. split; [exact H3|].
  split; [reflexivity|].
  exact (proj1 (proj2 (X23_backoff_starts_over no_options _ "ready" (1 # 3)
                         H1 H2 H3))).
Defined.

(** *** Disconnect events between two renders *)

(** X25. Disconnect events that reach the component between two renders
    all run the listener with the same captured state: when that state is
    connected with budget left, each of them starts a timer, every delay is
    computed for the same attempt (the captured count plus one), and the
    counter is left at that number however many timers were started. *)
Theorem X25_disconnects_between_renders :
  forall (options : ConnectionManagerOptions) (c : Component)
         (draws : list Q),
    isConnected (captured c) = true ->
    number (reconnectAttempts (captured c)) < maxReconnectAttempts options ->
    let r := play options (in_one_tick (disconnects draws)) c in
    snd r =
      map (calculateReconnectDelay options (S (reconnectAttempts (captured c))))
        draws
    /\ captured (fst r) = captured c
    /\ (draws <> [] ->
        reconnectAttempts (current (fst r)) =
        S (reconnectAttempts (captured c))).
Proof.
  intros options c draws Hc Hlt. revert c Hc Hlt.
  induction draws as [|random rest IH]; intros c Hc Hlt r; subst r.
  - cbn. now repeat split.
  - cbn [disconnects in_one_tick map]. fold (disconnects rest).
    fold (in_one_tick (disconnects rest)).
    rewrite play_cons, deliver_disconnect.
    rewrite (listener_schedules options _ _ random Hc Hlt).
    cbn [fst snd timers app].
    match goal with
    | |- context [play options _ ?c1] => set (c' := c1)
    end.
    destruct (IH c' Hc Hlt) as (I1 & I2 & I3).
    rewrite I1, I2. cbn [c' captured]. repeat split.
    intros _. destruct rest as [|random' rest'].
    + reflexivity.
    + apply I3. discriminate.
Qed.

Lemma X25_disconnects_between_renders_witness :
  let r := play no_options (in_one_tick (disconnects [1 # 2; 1 # 4; 3 # 4]))
             connected_component in
  isConnected (captured connected_component) = true
  /\ number (reconnectAttempts (captured connected_component))
     < maxReconnectAttempts no_options
  /\ List.length (snd r) = 3%nat
  /\ reconnectAttempts (current (fst r)) = 1%nat.
Proof.
  cbv zeta.
  assert (H1 : isConnected (captured connected_component) = true)
    by reflexivity.
  assert (H2 : number (reconnectAttempts (captured connected_component))
               < maxReconnectAttempts no_options) by reflexivity.
  split; [exact H1|]. split; [exact H2|].
  pose proof (X25_disconnects_between_renders no_options connected_component
                [1 # 2; 1 # 4; 3 # 4] H1 H2) as (E & _ & Hn).
  split.
  - rewrite E. reflexivity.
  - apply Hn. discriminate.
Defined.

(** *** How long an error stays *)

Lemma step_keeps_error (options : ConnectionManagerOptions)
    (s : ConnectionState) (ev : Event) :
  clears_error ev = false ->
  lastError s <> None ->
  lastError (fst (step options s ev)) <> None.
Proof.
  intros Hev Hs.
  destruct ev as [ts|random|m|m| | |m| | |]; try discriminate Hev;
    cbn [step fst]; trivial; try (cbn; discriminate).
  - unfold onTransportState. destruct (truthy (Some ts)); [|exact Hs].
    now destruct (connected_or_ready ts).
  - unfold handleDisconnect. destruct (_ && _); [exact Hs|].
    destruct (Qge_bool _ _); [cbn; discriminate | exact Hs].
Qed.

(** X24. A recorded error stays until clearError() or a new connect():
    no other event sets lastError back to null, not even the transport
    reaching connected or ready again (the text may be replaced by that of
    a later error). *)
Theorem X24_error_stays_until_cleared :
  forall (options : ConnectionManagerOptions) (evs : list Event)
         (s : ConnectionState),
    forallb (fun ev => negb (clears_error ev)) evs = true ->
    lastError s <> None ->
    lastError (state_after options evs s) <> None.
Proof.
  intros options. induction evs as [|ev later IH]; intros s Hall Hs.
  - exact Hs.
  - cbn [forallb] in Hall. apply andb_true_iff in Hall as [Hev Hall].
    apply negb_true_iff in Hev.
    rewrite state_after_cons. apply IH; [exact Hall|].
    now apply step_keeps_error.
Qed.

Lemma X24_error_stays_until_cleared_witness :
  let s := state_after no_options
             (disconnects [1 # 2; 1 # 2; 1 # 2; 1 # 2; 1 # 2; 1 # 2])
             connected in
  let evs := [TransportStateChanged "connecting";
              TransportStateChanged "ready"] in
  forallb (fun ev => negb (clears_error ev)) evs = true
  /\ lastError s <> None
  /\ lastError (state_after no_options evs s) <> None.
Proof.
  cbv zeta.
  assert (H : lastError
                (state_after no_options
                   (disconnects [1 # 2; 1 # 2; 1 # 2; 1 # 2; 1 # 2; 1 # 2])
                   connected) <> None) by discriminate.
  split; [reflexivity|]. split; [exact H|].
  exact (X24_error_stays_until_cleared no_options
           [TransportStateChanged "connecting"; TransportStateChanged "ready"]
           _ eq_refl H).
Defined.

End ManagerInvariants.

(** * Facts about the logger *)

Module LoggerFacts.

Import Logger.
Local Open Scope string_scope.

Lemma level_of_key_spec (key : string) (level : LogLevel) :
  level_of_key key = Some level <-> key = level_key level.
Proof.
  split.
  - unfold level_of_key.
    repeat match goal with
           | |- context [String.eqb key ?k] =>
               destruct (String.eqb_spec key k) as [->|_];
               [intros [= <-]; reflexivity|]
           end.
    discriminate.
  - intros ->. now destruct level.
Qed.

Lemma category_of_key_spec (key : string) (category : LogCategory) :
  category_of_key key = Some category <-> key = category_key category.
Proof.
  split.
  - unfold category_of_key.
    repeat match goal with
           | |- context [String.eqb key ?k] =>
               destruct (String.eqb_spec key k) as [->|_];
               [intros [= <-]; reflexivity|]
           end.
    discriminate.
  - intros ->. now destruct category.
Qed.

Lemma categories_fold (categories : list (string * bool)) :
  forall (t : Tables) (c : LogCategory),
    let t' :=
      fold_left
        (fun acc entry =>
           match category_of_key (fst entry) with
           | Some category => set_category category (snd entry) acc
           | None => acc
           end)
        categories t in
    CATEGORY_ENABLED t' c =
      or_keep (setting categories (category_key c)) (CATEGORY_ENABLED t c)
    /\ LOG_LEVEL_ENABLED t' = LOG_LEVEL_ENABLED t.
Proof.
  induction categories as [|[key enabled] later IH]; intros t c.
  - now split.
  - cbn [fold_left setting fst snd].
    destruct (IH (match category_of_key key with
                  | Some category => set_category category enabled t
                  | None => t
                  end) c) as [Hc Hl].
    cbv zeta. rewrite Hc, Hl. split.
    + destruct (setting later (category_key c)); [reflexivity|].
      cbn [or_keep].
      destruct (category_of_key key) as [c'|] eqn:Hkey.
      * apply category_of_key_spec in Hkey as ->.
        cbn [set_category CATEGORY_ENABLED]. unfold LogCategory_eqb.
        rewrite (String.eqb_sym (category_key c)).
        now destruct (String.eqb _ _).
      * destruct (String.eqb_spec key (category_key c)) as [->|_];
          [|reflexivity].
        now rewrite (proj2 (category_of_key_spec _ c) eq_refl) in Hkey.
    + now destruct (category_of_key key).
Qed.

Lemma levels_fold (levels : list (string * bool)) :
  forall (t : Tables) (l : LogLevel),
    let t' :=
      fold_left
        (fun acc entry =>
           match level_of_key (fst entry) with
           | Some level => set_level level (snd entry) acc
           | None => acc
           end)
        levels t in
    LOG_LEVEL_ENABLED t' l =
      or_keep (setting levels (level_key l)) (LOG_LEVEL_ENABLED t l)
    /\ CATEGORY_ENABLED t' = CATEGORY_ENABLED t.
Proof.
  induction levels as [|[key enabled] later IH]; intros t l.
  - now split.
  - cbn [fold_left setting fst snd].
    destruct (IH (match level_of_key key with
                  | Some level => set_level level enabled t
                  | None => t
                  end) l) as [Hl Hc].
    cbv zeta. rewrite Hl, Hc. split.
    + destruct (setting later (level_key l)); [reflexivity|].
      cbn [or_keep].
      destruct (level_of_key key) as [l'|] eqn:Hkey.
      * apply level_of_key_spec in Hkey as ->.
        cbn [set_level LOG_LEVEL_ENABLED]. unfold LogLevel_eqb.
        rewrite (String.eqb_sym (level_key l)).
        now destruct (String.eqb _ _).
      * destruct (String.eqb_spec key (level_key l)) as [->|_];
          [|reflexivity].
        now rewrite (proj2 (level_of_key_spec _ l) eq_refl) in Hkey.
    + now destruct (level_of_key key).
Qed.

(** X18. After configureLogging(categories, levels) a line of a given
    level and category is logged exactly when the level is enabled and the
    category is enabled, each read from the argument when it has the key
    and from the tables as they were otherwise: keys that name no level or
    category change nothing, and the two tables do not affect each
    other. *)
Theorem X18_configureLogging_lookup :
  forall (categories levels : list (string * bool)) (t : Tables)
         (level : LogLevel) (category : LogCategory),
    shouldLog (configureLogging categories levels t) level category =
    or_keep (setting levels (level_key level)) (LOG_LEVEL_ENABLED t level)
    && or_keep (setting categories (category_key category))
         (CATEGORY_ENABLED t category).
Proof.
  intros categories levels t level category.
  unfold shouldLog, configureLogging.
  match goal with
  | |- context [fold_left ?f levels ?t1] =>
      destruct (levels_fold levels t1 level) as [Hl Hc]
  end.
  cbv zeta in Hl, Hc. rewrite Hl, Hc.
  destruct (categories_fold categories t category) as [Hc' Hl'].
  cbv zeta in Hc', Hl'. now rewrite Hc', Hl'.
Qed.

End LoggerFacts.

(** * Facts about the elapsed-time display *)

Module MicControlFacts.

Import MicControl.
Local Open Scope string_scope.

Lemma length_append (s t : string) :
  String.length (s ++ t) = (String.length s + String.length t)%nat.
Proof. induction s as [|c s IH]; cbn; [reflexivity | now rewrite IH]. Qed.

(** Two strings that end in parts of the same length start alike. *)
Lemma append_inj (s1 s2 t1 t2 : string) :
  String.length t1 = String.length t2 ->
  s1 ++ t1 = s2 ++ t2 -> s1 = s2 /\ t1 = t2.
Proof.
  intros Hlen. revert s2.
  induction s1 as [|c s1 IH]; intros [|c' s2] H; cbn in H.
  - now split.
  - apply (f_equal String.length) in H. cbn in H.
    rewrite length_append in H. lia.
  - apply (f_equal String.length) in H. cbn in H.
    rewrite length_append in H. lia.
  - injection H as -> H. destruct (IH s2 H) as [-> ->]. now split.
Qed.

(** Below 100 a padded count has two characters. *)
Lemma padded_length (k : nat) :
  (k < 100)%nat -> String.length (padStart 2 "0" (toString k)) = 2%nat.
Proof.
  intros Hk.
  assert (H : forallb (fun k => Nat.eqb
                         (String.length (padStart 2 "0" (toString k))) 2)
                (seq 0 100) = true) by (vm_compute; reflexivity).
  rewrite forallb_forall in H.
  apply Nat.eqb_eq, H, in_seq. lia.
Qed.

(** Reading a padded count back. *)
Definition read_count (s : string) : option nat :=
  option_map Nat.of_uint (DecimalString.NilEmpty.uint_of_string s).

Lemma read_zeros (n : nat) (s : string) (k : nat) :
  read_count s = Some k -> read_count (repeat_char "0" n ++ s) = Some k.
Proof.
  intros H. induction n as [|n IH]; [exact H|].
  cbn [repeat_char append]. unfold read_count in *.
  cbn [DecimalString.NilEmpty.uint_of_string].
  destruct (DecimalString.NilEmpty.uint_of_string (repeat_char "0" n ++ s))
    as [d|]; [|discriminate].
  cbn in *. exact IH.
Qed.

Lemma read_padded (k : nat) :
  read_count (padStart 2 "0" (toString k)) = Some k.
Proof.
  unfold padStart. apply read_zeros. unfold read_count, toString.
  rewrite DecimalString.NilEmpty.usu. cbn.
  now rewrite DecimalNat.Unsigned.of_to.
Qed.

(** X19. Up to 99 minutes 59 seconds the elapsed time is shown in exactly
    five characters with a colon in the middle. *)
Theorem X19_formatTime_shape :
  forall seconds : nat,
    (seconds < 100 * 60)%nat ->
    String.length (formatTime seconds) = 5%nat
    /\ String.get 2 (formatTime seconds) = Some ":"%char.
Proof.
  intros seconds Hs. unfold formatTime. cbv zeta.
  assert (Hm : String.length
                 (padStart 2 "0" (toString (seconds / 60))) = 2%nat).
  { apply padded_length. apply Nat.Div0.div_lt_upper_bound. lia. }
  assert (Hsec : String.length
                   (padStart 2 "0" (toString (seconds mod 60))) = 2%nat).
  { apply padded_length.
    pose proof (Nat.mod_upper_bound seconds 60). lia. }
  split.
  - rewrite !length_append, Hm, Hsec. reflexivity.
  - change 2%nat with (0 + 2)%nat at 1. rewrite <- Hm at 1.
    rewrite <- append_correct2. reflexivity.
Qed.

Lemma X19_formatTime_shape_witness :
  (75 < 100 * 60)%nat
  /\ String.length (formatTime 75) = 5%nat
  /\ String.get 2 (formatTime 75) = Some ":"%char.
Proof.
  assert (H : (75 < 100 * 60)%nat) by lia.
  split; [exact H|]. exact (X19_formatTime_shape 75 H).
Defined.

(** X20. Two different elapsed times are never shown alike. *)
Theorem X20_formatTime_injective :
  forall a b : nat, formatTime a = formatTime b -> a = b.
Proof.
  intros a b H. unfold formatTime in H. cbv zeta in H.
  assert (Ha : String.length
                 (":" ++ padStart 2 "0" (toString (a mod 60))) = 3%nat).
  { rewrite length_append, padded_length; [reflexivity|].
    pose proof (Nat.mod_upper_bound a 60). lia. }
  assert (Hb : String.length
                 (":" ++ padStart 2 "0" (toString (b mod 60))) = 3%nat).
  { rewrite length_append, padded_length; [reflexivity|].
    pose proof (Nat.mod_upper_bound b 60). lia. }
  apply append_inj in H as [Hmin Hsec]; [|now rewrite Ha, Hb].
  remember (padStart 2 "0" (toString (a mod 60))) as sa eqn:Esa.
  remember (padStart 2 "0" (toString (b mod 60))) as sb eqn:Esb.
  injection Hsec as Hsec. subst sa sb.
  apply (f_equal read_count) in Hmin, Hsec.
  rewrite !read_padded in Hmin, Hsec.
  pose proof (Nat.div_mod_eq a 60) as Ea.
  pose proof (Nat.div_mod_eq b 60) as Eb.
  congruence.
Qed.

Lemma X20_formatTime_injective_witness :
  formatTime 75 = formatTime (60 + 15) /\ 75%nat = (60 + 15)%nat.
Proof.
  split; [reflexivity|].
  exact (X20_formatTime_injective 75 (60 + 15) eq_refl).
Defined.

End MicControlFacts.

(** * Facts about the shared chat log *)

Module ChatFacts.

Import Chat.
Local Open Scope string_scope.
Local Open Scope Z_scope.

Lemma toString_inj (a b : Z) : toString a = toString b -> a = b.
Proof.
  unfold toString. intros H.
  assert (Hn : forall z, Z.to_int z <> Decimal.Pos Decimal.Nil
                         /\ Z.to_int z <> Decimal.Neg Decimal.Nil).
  { intros [|p|p]; cbn; split; try discriminate;
      intros [= E]; now apply DecimalPos.Unsigned.to_uint_nonnil in E. }
  apply (f_equal DecimalString.NilZero.int_of_string) in H.
  rewrite !DecimalString.NilZero.isi in H by apply Hn.
  injection H as H. now apply DecimalZ.to_int_inj.
Qed.

Lemma addMessages_app (calls : list AddCall) :
  forall prev : list ChatMessage,
    addMessages calls prev =
    (prev ++ map (fun call =>
                    {| id := toString (call_now call);
                       type := call_type call;
                       text := call_text call;
                       timestamp := call_date call |}) calls)%list.
Proof.
  induction calls as [|call later IH]; intros prev.
  - cbn. now rewrite app_nil_r.
  - cbn [addMessages fold_left map]. fold (addMessages later).
    rewrite IH. unfold addMessage. now rewrite <- app_assoc.
Qed.

Lemma NoDup_map_injective {A B : Type} (f : A -> B) (l : list A) :
  (forall x y, f x = f y -> x = y) ->
  NoDup (map f l) <-> NoDup l.
Proof.
  intros Hinj. split.
  - apply NoDup_map_inv.
  - induction 1 as [|x l Hx Hl IH]; cbn; constructor; [|exact IH].
    intros Hin. apply in_map_iff in Hin as (y & Hy & Hin).
    apply Hinj in Hy. now subst.
Qed.

(** X21. Messages added to an empty chat log come out in the order of the
    calls, one per call, with the type and the text given; and their ids,
    which serve as list keys, are pairwise different exactly when no
    two of the calls read the same millisecond from Date.now(). *)
Theorem X21_message_ids_unique_iff_clock_distinct :
  forall calls : list AddCall,
    let messages := addMessages calls [] in
    map text messages = map call_text calls
    /\ map type messages = map call_type calls
    /\ (NoDup (map Chat.id messages) <-> NoDup (map call_now calls)).
Proof.
  intros calls messages. subst messages.
  rewrite addMessages_app. cbn [app]. rewrite !map_map. cbn [id text type].
  repeat split; try reflexivity.
  - intros H. rewrite <- map_map in H.
    now apply (NoDup_map_injective toString _ toString_inj) in H.
  - intros H. rewrite <- map_map.
    now apply (NoDup_map_injective toString _ toString_inj).
Qed.

End ChatFacts.

(** * Facts about the debug console *)

Module DebugDisplayFacts.

Import DebugDisplay.
Local Open Scope string_scope.

Lemma prefix_append (p s : string) : String.prefix p (p ++ s) = true.
Proof.
  induction p as [|c p IH]; cbn.
  - now destruct s.
  - destruct (ascii_dec c c) as [_|Hc]; [exact IH | now elim Hc].
Qed.

(** X22. The line of a transcript is styled by its speaker alone, whatever
    was said: a final user transcript is appended in blue and a bot
    transcript in green even when the text contains "error" or "warning";
    a user transcript that is not final is not shown, and nothing is shown
    while the console is not mounted. *)
Theorem X22_transcript_lines_styled_by_speaker :
  forall (time text : string),
    onUserTranscript true time text true =
      Some ("text-xs font-mono py-1 border-b border-border/50 text-blue-500",
            time ++ " - User: " ++ text)
    /\ onBotTranscript true time text =
      Some ("text-xs font-mono py-1 border-b border-border/50 text-green-500",
            time ++ " - Bot: " ++ text)
    /\ (forall mounted, onUserTranscript mounted time text false = None)
    /\ (forall final, onUserTranscript false time text final = None)
    /\ onBotTranscript false time text = None.
Proof.
  intros time text.
  assert (Hu : startsWith ("User: " ++ text) "User: " = true)
    by apply prefix_append.
  assert (Hb : startsWith ("Bot: " ++ text) "Bot: " = true)
    by apply prefix_append.
  repeat split.
  - unfold onUserTranscript, log, className. now rewrite Hu.
  - unfold onBotTranscript, log, className. rewrite Hb. reflexivity.
  - now intros [|].
Qed.

End DebugDisplayFacts.
